(** * Session, authorization and scan-lifecycle layer of the scanner front end

    A shallow embedding of the TypeScript sources of the browser client:
    the shared types, the axios gateway with its two interceptors, the
    scans list, scan details and dashboard pages, and the route table of
    [App].  Runtime values are modelled the way the code sees them: the
    [as const] enumerations are numbers, [localStorage] is a finite map
    from strings to strings, axios headers are a finite map, and every
    function that touches the browser threads the browser state
    explicitly. *)

From Stdlib Require Import ZArith Bool List Lia.
From stdpp Require Import base option list gmap strings pretty.

Local Open Scope Z_scope.
Local Open Scope string_scope.
Local Open Scope list_scope.

(** ** Runtime values

    The values that reach a [switch] or a [===] at run time are not
    constrained by the TypeScript annotations ([params.value as
    ScanStatus] is a cast), so the functions that receive them take a
    [JsValue].  Numbers are restricted to integers, which is what the
    enumerations and the counters of the data model range over. *)

Inductive JsValue : Type :=
  | JsUndefined
  | JsNull
  | JsBoolean (b : bool)
  | JsNumber (n : Z)
  | JsString (s : string).

(** [a === b] *)
Definition strict_eq (a b : JsValue) : bool :=
  match a, b with
  | JsUndefined, JsUndefined => true
  | JsNull, JsNull => true
  | JsBoolean x, JsBoolean y => Bool.eqb x y
  | JsNumber x, JsNumber y => Z.eqb x y
  | JsString x, JsString y => bool_decide (x = y)
  | _, _ => false
  end.

(** ToBoolean, as used by [if (x)], [x ? a : b], [x || y] and [x && y]. *)
Definition truthy (a : JsValue) : bool :=
  match a with
  | JsUndefined | JsNull => false
  | JsBoolean b => b
  | JsNumber n => negb (Z.eqb n 0)
  | JsString s => negb (bool_decide (s = ""))
  end.

(** A call either returns or throws. *)
Inductive Completion (A : Type) : Type :=
  | Returned (a : A)
  | Thrown (name : string).
Arguments Returned {A} a.
Arguments Thrown {A} name.

(** [Number.MAX_SAFE_INTEGER] and [Number.isSafeInteger]: up to this
    size every integer is a number of its own, addition of integers is
    exact as long as the result stays in the range, and a number prints
    as its decimal digits. *)
Definition Number_MAX_SAFE_INTEGER : Z := 2 ^ 53 - 1.

Definition isSafeInteger (n : Z) : bool :=
  Z.leb (- Number_MAX_SAFE_INTEGER) n && Z.leb n Number_MAX_SAFE_INTEGER.

(** A value of a JSON body, as an error answer may carry it. *)
#[local] Unset Elimination Schemes.
Inductive Json : Type :=
  | JsonNull
  | JsonBoolean (b : bool)
  | JsonNumber (n : Z)
  | JsonString (s : string)
  | JsonArray (items : list Json)
  | JsonObject (fields : list (string * Json)).
#[local] Set Elimination Schemes.

(** ToBoolean of such a value: arrays and objects are always truthy. *)
Definition json_truthy (v : Json) : bool :=
  match v with
  | JsonNull => false
  | JsonBoolean b => b
  | JsonNumber n => negb (Z.eqb n 0)
  | JsonString s => negb (bool_decide (s = ""))
  | JsonArray _ | JsonObject _ => true
  end.

(** [s.replace(pattern, replacement)] with a string pattern: the first
    occurrence of [pattern] is replaced, the rest of [s] is kept.  The
    replacement is taken literally (it holds no [$]). *)
Fixpoint String_replace (pattern replacement s : string) : string :=
  if String.prefix pattern s
  then replacement +:+ String.substring (String.length pattern)
                         (String.length s - String.length pattern) s
  else match s with
       | EmptyString => EmptyString
       | String c rest => String c (String_replace pattern replacement rest)
       end.

(** ** The shared types ([types], appended to [i18n/config.ts]) *)

Module Types.

Inductive UserRole : Type := DEV | ANALYST | ADMIN.

(** [UserRole = { DEV: 1, ANALYST: 2, ADMIN: 3 } as const] *)
Definition UserRole_value (r : UserRole) : Z :=
  match r with DEV => 1 | ANALYST => 2 | ADMIN => 3 end.

#[global] Instance UserRole_eq_dec : EqDecision UserRole.
Proof. solve_decision. Defined.

Inductive ScanStatus : Type := PENDING | RUNNING | COMPLETED | FAILED.

(** [ScanStatus = { PENDING: 1, RUNNING: 2, COMPLETED: 3, FAILED: 4 }] *)
Definition ScanStatus_value (s : ScanStatus) : Z :=
  match s with PENDING => 1 | RUNNING => 2 | COMPLETED => 3 | FAILED => 4 end.

Inductive VulnerabilitySeverity : Type := LOW | MEDIUM | HIGH | CRITICAL.

(** [VulnerabilitySeverity = { LOW: 1, MEDIUM: 2, HIGH: 3, CRITICAL: 4 }] *)
Definition VulnerabilitySeverity_value (s : VulnerabilitySeverity) : Z :=
  match s with LOW => 1 | MEDIUM => 2 | HIGH => 3 | CRITICAL => 4 end.

(** [SeverityColors]: an object literal whose computed keys are the four
    severity numbers, in the order the source lists them. *)
Definition SeverityColors : gmap Z string :=
  <[VulnerabilitySeverity_value LOW := "info"]>
    (<[VulnerabilitySeverity_value MEDIUM := "warning"]>
       (<[VulnerabilitySeverity_value HIGH := "error"]>
          (<[VulnerabilitySeverity_value CRITICAL := "error"]> ∅))).

Record User : Type := mkUser {
  user_id : Z;
  username : string;
  role : UserRole;
  user_created_at : string;
  user_updated_at : string
}.

Record LoginRequest : Type := mkLoginRequest {
  login_username : string;
  login_password : string
}.

Record LoginResponse : Type := mkLoginResponse {
  access_token : string
}.

Record Vulnerability : Type := mkVulnerability {
  vuln_id : Z;
  scan_id : Z;
  vuln_name : string;
  severity : VulnerabilitySeverity;
  url_path : string;
  description : option string;
  cwe_id : option string
}.

(** [status] is kept as the runtime value the backend sent;
    [vulnerabilities?] and [vulnerabilities_amount?] are optional. *)
Record Scan : Type := mkScan {
  id : Z;
  target_url : string;
  status : JsValue;
  created_at : string;
  completed_at : option string;
  scan_user_id : Z;
  vulnerabilities : option (list Vulnerability);
  vulnerabilities_amount : option Z
}.

(** [UserRoleLabels], [ScanStatusLabels] and
    [VulnerabilitySeverityLabels]: the translation key of each value. *)
Definition UserRoleLabels : gmap Z string :=
  <[UserRole_value ADMIN := "users.roleAdmin"]>
    (<[UserRole_value ANALYST := "users.roleAnalyst"]>
       (<[UserRole_value DEV := "users.roleDev"]> ∅)).

Definition ScanStatusLabels : gmap Z string :=
  <[ScanStatus_value FAILED := "scans.statusFailed"]>
    (<[ScanStatus_value COMPLETED := "scans.statusCompleted"]>
       (<[ScanStatus_value RUNNING := "scans.statusRunning"]>
          (<[ScanStatus_value PENDING := "scans.statusPending"]> ∅))).

Definition VulnerabilitySeverityLabels : gmap Z string :=
  <[VulnerabilitySeverity_value CRITICAL := "vulnerabilities.severityCritical"]>
    (<[VulnerabilitySeverity_value HIGH := "vulnerabilities.severityHigh"]>
       (<[VulnerabilitySeverity_value MEDIUM := "vulnerabilities.severityMedium"]>
          (<[VulnerabilitySeverity_value LOW := "vulnerabilities.severityLow"]> ∅))).

End Types.

(** ** The language configuration ([i18n/config.ts]) *)

Module I18n.

(** [i18n.init({ ..., fallbackLng: 'ru', ... })] *)
Definition fallbackLng : string := "ru".

End I18n.

(** ** The browser: [localStorage] and [window.location]

    Every write is also appended to [effects], so that the order in which
    a handler touches the store, navigates and talks to the network can be
    stated. *)

Module Browser.

(** An axios request configuration, after the instance defaults have
    been merged in. *)
Record RequestConfig : Type := mkConfig {
  method : string;
  baseURL : string;
  url : string;
  headers : gmap string string;
  data : list (string * string)
}.

Inductive Effect : Type :=
  | StorageSet (key value : string)
  | StorageRemove (key : string)
  | Navigate (href : string)
  | HttpRequest (config : RequestConfig).

Record State : Type := mkState {
  localStorage : gmap string string;
  location_href : string;
  effects : list Effect
}.

(** Code that reads and writes the browser state. *)
Definition Js (A : Type) : Type := State → A * State.

Definition ret {A} (a : A) : Js A := fun w => (a, w).

Definition bind {A B} (m : Js A) (k : A → Js B) : Js B :=
  fun w => let '(a, w') := m w in k a w'.

Definition emit (e : Effect) (w : State) : State :=
  mkState (localStorage w) (location_href w) (effects w ++ [e]).

(** [localStorage.getItem(key)]: [null] is [None]. *)
Definition getItem (key : string) : Js (option string) :=
  fun w => (localStorage w !! key, w).

(** [localStorage.setItem(key, value)] *)
Definition setItem (key value : string) : Js unit :=
  fun w => (tt, emit (StorageSet key value)
                  (mkState (<[key := value]> (localStorage w))
                           (location_href w) (effects w))).

(** [localStorage.removeItem(key)]: no error when the key is absent. *)
Definition removeItem (key : string) : Js unit :=
  fun w => (tt, emit (StorageRemove key)
                  (mkState (delete key (localStorage w))
                           (location_href w) (effects w))).

(** [window.location.href = href] *)
Definition set_location_href (href : string) : Js unit :=
  fun w => (tt, emit (Navigate href)
                  (mkState (localStorage w) href (effects w))).

(** The request is handed to the transport. *)
Definition send (config : RequestConfig) : Js unit :=
  fun w => (tt, emit (HttpRequest config) w).

(** The places the browser was told to navigate to, oldest first. *)
Definition navigations (w : State) : list string :=
  omap (fun e => match e with Navigate h => Some h | _ => None end)
       (effects w).

(** The requests that left the browser, oldest first. *)
Definition requests (w : State) : list RequestConfig :=
  omap (fun e => match e with HttpRequest c => Some c | _ => None end)
       (effects w).

End Browser.

Declare Scope js_scope.
Notation "'let*' x := m 'in' k" := (Browser.bind m (fun x => k))
  (at level 10, x name, m at level 100, k at level 200) : js_scope.
Notation "'exec' m 'in' k" := (Browser.bind m (fun _ => k))
  (at level 10, m at level 100, k at level 200) : js_scope.
Delimit Scope js_scope with js.

(** ** The API gateway ([services/api]) *)

Module Api.
Import Types Browser.
Local Open Scope js_scope.

Record AxiosResponse (A : Type) : Type := mkResponse {
  response_status : Z;
  response_data : A
}.
Arguments mkResponse {A} _ _.
Arguments response_status {A} _.
Arguments response_data {A} _.

(** What a rejected request carries: [error.response] is undefined when
    no answer arrived at all. *)
Record AxiosError : Type := mkError {
  message : string;
  response : option (AxiosResponse (option string))
}.

(** A settled promise. *)
Inductive Settled (A : Type) : Type :=
  | Fulfilled (value : A)
  | Rejected (reason : AxiosError).
Arguments Fulfilled {A} value.
Arguments Rejected {A} reason.

(** The transport under the interceptors: it sees the request as the
    request interceptor left it and settles with a response or with an
    error. *)
Definition Adapter (A : Type) : Type :=
  RequestConfig → Settled (AxiosResponse A).

(** [axios.create({ baseURL: '/api', headers: { 'Content-Type': ... } })] *)
Definition api_baseURL : string := "/api".
Definition api_headers : gmap string string :=
  {[ "Content-Type" := "application/json" ]}.

(** The configuration [api.get] and [api.post] hand to the interceptors:
    the headers of the call override the defaults of the instance. *)
Definition make_config (method url : string)
    (data : list (string * string)) (call_headers : gmap string string)
    : RequestConfig :=
  mkConfig method api_baseURL url (call_headers ∪ api_headers) data.

Definition set_header (name value : string) (config : RequestConfig)
    : RequestConfig :=
  mkConfig (method config) (baseURL config) (url config)
           (<[name := value]> (headers config)) (data config).

(** [api.interceptors.request.use((config) => ...)] *)
Definition request_interceptor (config : RequestConfig) : Js RequestConfig :=
  let* token := getItem "token" in
  let config :=
    match token with
    | Some t =>
        if truthy (JsString t)
        then set_header "Authorization" ("Bearer " +:+ t) config
        else config
    | None => config
    end in
  let* stored := getItem "i18nextLng" in
  let currentLang :=
    match stored with
    | Some l => if truthy (JsString l) then l else "ru"
    | None => "ru"
    end in
  ret (set_header "Accept-Language"
         (if bool_decide (currentLang = "en") then "en" else "ru") config).

(** The request as it leaves the browser when it is issued in [w]. *)
Definition outgoing (config : RequestConfig) (w : State) : RequestConfig :=
  fst (request_interceptor config w).

(** [error.response?.status] *)
Definition error_status (error : AxiosError) : option Z :=
  response_status <$> response error.

(** [api.interceptors.response.use((response) => response, ...)] *)
Definition response_fulfilled {A} (r : AxiosResponse A) : AxiosResponse A := r.

(** [api.interceptors.response.use(..., (error) => ...)] *)
Definition response_rejected {A} (error : AxiosError) : Js (Settled A) :=
  if bool_decide (error_status error = Some 401)
  then exec removeItem "token" in
       exec removeItem "user" in
       exec set_location_href "/login" in
       ret (Rejected error)
  else ret (Rejected error).

(** One request through the instance: request interceptor, transport,
    response interceptor. *)
Definition request {A} (adapter : Adapter A) (config : RequestConfig)
    : Js (Settled (AxiosResponse A)) :=
  let* config := request_interceptor config in
  exec send config in
  match adapter config with
  | Fulfilled r => ret (Fulfilled (response_fulfilled r))
  | Rejected error => response_rejected error
  end.

Definition get {A} (adapter : Adapter A) (url : string) :=
  request adapter (make_config "get" url [] ∅).

Definition post {A} (adapter : Adapter A) (url : string)
    (data : list (string * string)) :=
  request adapter (make_config "post" url data ∅).

(** [const response = await p; return response.data;] *)
Definition response_data_of {A} (p : Js (Settled (AxiosResponse A)))
    : Js (Settled A) :=
  let* r := p in
  ret (match r with
       | Fulfilled response => Fulfilled (response_data response)
       | Rejected error => Rejected error
       end).

(** The body of the login request. *)
Definition login_body (credentials : LoginRequest) : list (string * string) :=
  [("username", login_username credentials);
   ("password", login_password credentials)].

(** [authAPI.login] *)
Definition authAPI_login (adapter : Adapter LoginResponse)
    (credentials : LoginRequest) : Js (Settled LoginResponse) :=
  response_data_of (post adapter "/auth/login" (login_body credentials)).

(** [usersAPI.getCurrentUser] *)
Definition usersAPI_getCurrentUser (adapter : Adapter User)
    : Js (Settled User) :=
  response_data_of (get adapter "/users/me").

(** [scansAPI.getAll] *)
Definition scansAPI_getAll (adapter : Adapter (list Scan))
    : Js (Settled (list Scan)) :=
  response_data_of (get adapter "/scans/").

(** [scansAPI.getById]: the template literal prints the number.  The
    model takes the id as an integer and prints its decimal digits, which
    is what JavaScript does for a safe integer ([isSafeInteger]); what is
    stated about this call is stated for such ids. *)
Definition scansAPI_getById (adapter : Adapter Scan) (id : Z)
    : Js (Settled Scan) :=
  response_data_of (get adapter ("/scans/" +:+ pretty id)).

(** [scansAPI.create] *)
Definition scansAPI_create (adapter : Adapter Scan) (targetUrl : string)
    : Js (Settled Scan) :=
  response_data_of (post adapter "/scans/" [("target_url", targetUrl)]).

(** The argument of [usersAPI.create]. *)
Record UserData : Type := mkUserData {
  new_username : string;
  new_email : string;
  new_password : string;
  new_role : string
}.

Definition user_body (userData : UserData) : list (string * string) :=
  [("username", new_username userData);
   ("email", new_email userData);
   ("password", new_password userData);
   ("role", new_role userData)].

(** [usersAPI.getAll] *)
Definition usersAPI_getAll (adapter : Adapter (list User))
    : Js (Settled (list User)) :=
  response_data_of (get adapter "/users/").

(** [usersAPI.create] *)
Definition usersAPI_create (adapter : Adapter User) (userData : UserData)
    : Js (Settled User) :=
  response_data_of (post adapter "/users/" (user_body userData)).

End Api.

(** ** The scans list ([pages/ScansPage.tsx]) *)

Module ScansPage.
Import Types.

(** [getStatusColor]: a [switch] over the status with a [default] arm. *)
Definition getStatusColor (status : JsValue) : string :=
  if strict_eq status (JsNumber (ScanStatus_value COMPLETED)) then "success"
  else if strict_eq status (JsNumber (ScanStatus_value RUNNING)) then "warning"
  else if strict_eq status (JsNumber (ScanStatus_value FAILED)) then "error"
  else "default".

(** The [vulnerabilities] column: [renderCell: (params) =>
    params.value.length], where [params.value] is the field of the row.
    Reading [length] of [undefined] throws. *)
Definition vulnerabilities_renderCell (row : Scan) : Completion Z :=
  match vulnerabilities row with
  | Some value => Returned (Z.of_nat (length value))
  | None => Thrown "TypeError"
  end.

(** [user && (user.role === UserRole.ANALYST || user.role === UserRole.ADMIN)] *)
Definition canCreateScan (user : option User) : bool :=
  match user with
  | None => false
  | Some u =>
      Z.eqb (UserRole_value (role u)) (UserRole_value ANALYST)
      || Z.eqb (UserRole_value (role u)) (UserRole_value ADMIN)
  end.

(** The component state the new-scan action uses, and [posted], the
    target URLs handed to [scansAPI.create] so far. *)
Record PageState : Type := mkPage {
  openDialog : bool;
  targetUrl : string;
  creating : bool;
  posted : list string
}.

Definition initial : PageState := mkPage false "" false [].

(** What can happen to the page: the user acts on an element, or the
    pending [scansAPI.create] settles. *)
Inductive Event : Type :=
  | ClickNewScan
  | CloseDialog
  | ChangeTargetUrl (value : string)
  | ClickStartScan
  | CreateSettled (ok : bool).

(** [{canCreateScan && (<Button ...>)}] *)
Definition newScanButton_rendered (user : option User) : bool :=
  canCreateScan user.

(** [<Dialog open={openDialog} ...>] *)
Definition dialog_shown (st : PageState) : bool := openDialog st.

(** An event can only come from an element that is on the screen: the
    button when it is rendered, the text field and the two dialog
    buttons when the dialog is open, the start button unless
    [disabled={creating || !targetUrl}]. *)
Definition enabled (user : option User) (st : PageState) (ev : Event) : bool :=
  match ev with
  | ClickNewScan => newScanButton_rendered user
  | CloseDialog | ChangeTargetUrl _ => dialog_shown st
  | ClickStartScan =>
      dialog_shown st
      && negb (creating st || negb (truthy (JsString (targetUrl st))))
  | CreateSettled _ => creating st
  end.

Definition handle (st : PageState) (ev : Event) : PageState :=
  match ev with
  | ClickNewScan => mkPage true (targetUrl st) (creating st) (posted st)
  | CloseDialog => mkPage false (targetUrl st) (creating st) (posted st)
  | ChangeTargetUrl v => mkPage (openDialog st) v (creating st) (posted st)
  | ClickStartScan =>
      (* handleCreateScan up to the [await] *)
      if truthy (JsString (targetUrl st))
      then mkPage (openDialog st) (targetUrl st) true
                  (posted st ++ [targetUrl st])
      else st
  | CreateSettled true =>
      (* the [try] block after the [await], then [finally] *)
      mkPage false "" false (posted st)
  | CreateSettled false =>
      (* [catch], then [finally] *)
      mkPage (openDialog st) (targetUrl st) false (posted st)
  end.

Definition step (user : option User) (st : PageState) (ev : Event) : PageState :=
  if enabled user st ev then handle st ev else st.

Definition run (user : option User) (evs : list Event) : PageState :=
  fold_left (step user) evs initial.

(** The list state of the page: [scans] and [loading]. *)
Record ListState : Type := mkList {
  scans : list Scan;
  loading : bool
}.

Definition initial_list : ListState := mkList [] true.

(** [loadScans]: the rows are replaced when the call succeeds; [finally]
    ends the loading state either way. *)
Definition loadScans (adapter : Api.Adapter (list Scan)) (st : ListState)
    : Browser.Js ListState :=
  Browser.bind (Api.scansAPI_getAll adapter) (fun answer =>
    Browser.ret (match answer with
                 | Api.Fulfilled data => mkList data false
                 | Api.Rejected _ => mkList (scans st) false
                 end)).

(** [handleDeleteScan]: after [confirm], the call of the delete endpoint
    is commented out and only [loadScans] runs. *)
Definition handleDeleteScan (confirmed : bool)
    (adapter : Api.Adapter (list Scan)) (id : Z) (st : ListState)
    : Browser.Js ListState :=
  if confirmed then loadScans adapter st else Browser.ret st.

End ScansPage.

(** ** The scan details view ([pages/ScanDetailsPage.tsx]) *)

Module ScanDetailsPage.
Import Types.

(** [getStatusColor], the copy local to this page. *)
Definition getStatusColor (status : JsValue) : string :=
  if strict_eq status (JsNumber (ScanStatus_value COMPLETED)) then "success"
  else if strict_eq status (JsNumber (ScanStatus_value RUNNING)) then "warning"
  else if strict_eq status (JsNumber (ScanStatus_value FAILED)) then "error"
  else "default".

(** The [vulnerabilities] state after [loadData] received [scanData]:
    it starts as [[]] and is set to [scanData.vulnerabilities || []]
    only for a COMPLETED scan. *)
Definition loaded_vulnerabilities (scanData : Scan) : list Vulnerability :=
  if strict_eq (status scanData) (JsNumber (ScanStatus_value COMPLETED))
  then match vulnerabilities scanData with
       | Some vulnData => vulnData
       | None => []
       end
  else [].

(** [{vulnerabilities.length}] *)
Definition shown_count (scanData : Scan) : Z :=
  Z.of_nat (length (loaded_vulnerabilities scanData)).

(** [SeverityColors[vuln.severity]] *)
Definition severity_chip_color (vuln : Vulnerability) : option string :=
  SeverityColors !! VulnerabilitySeverity_value (severity vuln).

(** The component state: [scan], [vulnerabilities] and [loading]. *)
Record PageState : Type := mkPage {
  scan : option Scan;
  vulnerabilities_state : list Vulnerability;
  loading : bool
}.

Definition initial : PageState := mkPage None [] true.

(** [loadData] of the effect on [id]; [fetch] is
    [scansAPI.getById(Number(id))].  [if (!id) return] leaves before the
    [try], so [finally] does not run then. *)
Definition loadData (id : option string)
    (fetch : Browser.Js (Api.Settled Scan)) (st : PageState)
    : Browser.Js PageState :=
  match id with
  | None => Browser.ret st
  | Some i =>
      if truthy (JsString i)
      then Browser.bind fetch (fun answer =>
             Browser.ret
               (match answer with
                | Api.Fulfilled scanData =>
                    mkPage (Some scanData)
                      (if strict_eq (status scanData)
                            (JsNumber (ScanStatus_value COMPLETED))
                       then match vulnerabilities scanData with
                            | Some vulnData => vulnData
                            | None => []
                            end
                       else vulnerabilities_state st)
                      false
                | Api.Rejected _ =>
                    mkPage (scan st) (vulnerabilities_state st) false
                end))
      else Browser.ret st
  end.

(** What the component returns: the spinner while [loading], the
    not-found alert without a scan, the details otherwise. *)
Inductive View : Type :=
  | Spinner
  | NotFound
  | Details (scan : Scan) (count : Z).

Definition view (st : PageState) : View :=
  if loading st then Spinner
  else match scan st with
       | None => NotFound
       | Some sc => Details sc (Z.of_nat (length (vulnerabilities_state st)))
       end.

(** [{scan.status === ScanStatus.COMPLETED && (...)}]: the report buttons
    and the vulnerabilities section. *)
Definition completed_sections_shown (sc : Scan) : bool :=
  strict_eq (status sc) (JsNumber (ScanStatus_value COMPLETED)).

(** [{scan.status === ScanStatus.RUNNING && (<Alert severity="info" ...>)}] *)
Definition running_alert_shown (sc : Scan) : bool :=
  strict_eq (status sc) (JsNumber (ScanStatus_value RUNNING)).

(** [{scan.status === ScanStatus.FAILED && (<Alert severity="error" ...>)}] *)
Definition failed_alert_shown (sc : Scan) : bool :=
  strict_eq (status sc) (JsNumber (ScanStatus_value FAILED)).

(** The CWE cell: a chip that opens the MITRE page when
    [vuln.cwe_id && vuln.cwe_id !== 'CWE-UNKNOWN'], otherwise a dash. *)
Definition cwe_cell (vuln : Vulnerability) : option string :=
  match cwe_id vuln with
  | Some c =>
      if truthy (JsString c) && negb (bool_decide (c = "CWE-UNKNOWN"))
      then Some ("https://cwe.mitre.org/data/definitions/"
                 +:+ String_replace "CWE-" "" c +:+ ".html")
      else None
  | None => None
  end.

End ScanDetailsPage.

(** ** The dashboard ([pages/DashboardPage], appended to [CWEPage.tsx]) *)

Module DashboardPage.
Import Types.

(** The callback of the [reduce]:
    [s.vulnerabilities_amount ? sum + s.vulnerabilities_amount : sum] *)
Definition add_amount (sum : Z) (s : Scan) : Z :=
  match vulnerabilities_amount s with
  | Some amount => if truthy (JsNumber amount) then sum + amount else sum
  | None => sum
  end.

(** [scans.reduce(..., 0)] *)
Definition totalVulnerabilities (scans : list Scan) : Z :=
  fold_left add_amount scans 0.

(** The sum of the sizes of the amounts a list carries: while it is a
    safe integer, every sum of some of the amounts, in any order, is one
    too, and the additions of the [reduce] are exact. *)
Definition amounts_size (scans : list Scan) : Z :=
  fold_right
    (fun s acc =>
       Z.abs (match vulnerabilities_amount s with
              | Some amount => amount
              | None => 0
              end) + acc)
    0 scans.

(** [scans.length] *)
Definition totalScans (scans : list Scan) : Z := Z.of_nat (length scans).

(** [scans.filter((s) => s.status === ScanStatus.COMPLETED).length] *)
Definition completedScans (scans : list Scan) : Z :=
  Z.of_nat (length (List.filter
    (fun s => strict_eq (status s) (JsNumber (ScanStatus_value COMPLETED)))
    scans)).

(** [scans.filter((s) => s.status === ScanStatus.RUNNING).length] *)
Definition runningScans (scans : list Scan) : Z :=
  Z.of_nat (length (List.filter
    (fun s => strict_eq (status s) (JsNumber (ScanStatus_value RUNNING)))
    scans)).

End DashboardPage.

(** ** The session context ([context/AuthContext]) *)

Module AuthContext.
Import Types Browser Api.
Local Open Scope js_scope.

(** What the provider exposes to the component tree. *)
Record Session : Type := mkSession {
  user : option User;
  isLoading : bool
}.

(** The two endpoints the session talks to. *)
Record Network : Type := mkNetwork {
  auth_login : Adapter LoginResponse;
  users_me : Adapter User
}.

(** Modelled from the spec: the source of [AuthContext] (the provider
    with its [login] and [logout]) is not among the files; only its
    callers are.  Section 4.3: [login] calls the authentication
    endpoint; on success it stores the returned token in the credential
    store, then fetches the current-user profile and caches it; on
    failure the error propagates to the caller.  The endpoint calls are
    the ones of [services/api], and the token is kept under the key the
    gateway reads.  The profile is cached in the session. *)
Definition login (net : Network) (credentials : LoginRequest)
    (ctx : Session) : Js (Settled unit * Session) :=
  let* answer := authAPI_login (auth_login net) credentials in
  match answer with
  | Rejected error => ret (Rejected error, ctx)
  | Fulfilled r =>
      exec setItem "token" (access_token r) in
      let* profile := usersAPI_getCurrentUser (users_me net) in
      match profile with
      | Fulfilled u => ret (Fulfilled tt, mkSession (Some u) (isLoading ctx))
      | Rejected error => ret (Rejected error, ctx)
      end
  end.

End AuthContext.

(** ** The route guard ([components/ProtectedRoute]) and the routes of [App] *)

Module ProtectedRoute.
Import Types AuthContext.

Inductive Rendering : Type :=
  | LoadingPlaceholder
  | RedirectToLogin
  | RedirectToDefault
  | Children.

(** Modelled from the spec: the source of [ProtectedRoute] is not among
    the files; only its uses in [App] are.  Section 4.4: given an
    allow-list (empty meaning any authenticated user) and the session,
    (a) a loading placeholder while [isLoading], (b) a redirect to the
    login entry point when the user is absent, (c) a redirect to a safe
    default view when the user is present but its role is not in the
    allow-list, (d) otherwise the protected content.  Membership is
    exact. *)
Definition guard (allowedRoles : list UserRole) (ctx : Session) : Rendering :=
  if isLoading ctx then LoadingPlaceholder
  else match user ctx with
       | None => RedirectToLogin
       | Some u =>
           match allowedRoles with
           | [] => Children
           | _ :: _ =>
               if bool_decide (role u ∈ allowedRoles)
               then Children else RedirectToDefault
           end
       end.

End ProtectedRoute.

Module App.
Import Types.

(** The [element] of a [<Route>]. *)
Inductive Element : Type :=
  | Public (page : string)
  | Protected (allowedRoles : list UserRole) (page : string)
  | NavigateTo (to : string).

(** The [<Routes>] of [App], in source order; a [<ProtectedRoute>]
    without the [allowedRoles] property carries the empty allow-list. *)
Definition routes : list (string * Element) :=
  [ ("/login", Public "LoginPage");
    ("/", Protected [] "DashboardPage");
    ("/scans", Protected [] "ScansPage");
    ("/scans/:id", Protected [] "ScanDetailsPage");
    ("/cwe", Protected [] "CWEPage");
    ("/users", Protected [ADMIN] "UsersPage");
    ("*", NavigateTo "/") ].

(** What the element of a route shows for a session. *)
Definition render (el : Element) (ctx : AuthContext.Session)
    : ProtectedRoute.Rendering :=
  match el with
  | Public _ => ProtectedRoute.Children
  | Protected allowedRoles _ => ProtectedRoute.guard allowedRoles ctx
  | NavigateTo _ => ProtectedRoute.RedirectToDefault
  end.

End App.

(** ** The user administration page ([pages/UsersPage.tsx]) *)

Module UsersPage.
Import Types.

(** The [formData] state. *)
Record FormData : Type := mkForm {
  form_username : string;
  form_password : string;
  form_role : UserRole
}.

Definition empty_form : FormData := mkForm "" "" DEV.

(** The component state the new-user dialog uses, and [posted], the
    arguments handed to [usersAPI.create] so far. *)
(** [error] starts as the empty string, but [setError] is also handed the
    [detail] of an error answer, which can be any value. *)
Record PageState : Type := mkPage {
  openDialog : bool;
  creating : bool;
  error : Json;
  formData : FormData;
  posted : list Api.UserData
}.

Definition initial : PageState :=
  mkPage false false (JsonString "") empty_form [].

(** How [usersAPI.create] settles: it is fulfilled, or it is rejected with
    an [err] whose [err.response?.data?.detail] is [detail] ([None] when
    the chain ends in undefined). *)
Inductive Outcome : Type :=
  | Created
  | Failed (detail : option Json).

Inductive Event : Type :=
  | ClickNewUser
  | CloseDialog
  | ChangeUsername (value : string)
  | ChangePassword (value : string)
  | ChangeRole (value : UserRole)
  | ClickCreate
  | CreateSettled (outcome : Outcome).

(** [{error && (<Alert severity="error">{error}</Alert>)}] *)
Definition alert_branch_taken (st : PageState) : bool := json_truthy (error st).

(** The argument [handleCreateUser] builds for [usersAPI.create]. *)
Definition userData_of (f : FormData) : Api.UserData :=
  Api.mkUserData (form_username f)
                 (form_username f +:+ "@example.com")
                 (form_password f)
                 (pretty (UserRole_value (form_role f))).

(** [err.response?.data?.detail || 'Ошибка создания пользователя'] *)
Definition failure_message (detail : option Json) : Json :=
  match detail with
  | Some d =>
      if json_truthy d then d
      else JsonString "Ошибка создания пользователя"
  | None => JsonString "Ошибка создания пользователя"
  end.

(** The new-user button is always on the page; the fields and the two
    dialog buttons are there while the dialog is open; the create button
    has [disabled={creating}]. *)
Definition enabled (st : PageState) (ev : Event) : bool :=
  match ev with
  | ClickNewUser => true
  | CloseDialog | ChangeUsername _ | ChangePassword _ | ChangeRole _ =>
      openDialog st
  | ClickCreate => openDialog st && negb (creating st)
  | CreateSettled _ => creating st
  end.

Definition handle (st : PageState) (ev : Event) : PageState :=
  match ev with
  | ClickNewUser =>
      mkPage true (creating st) (error st) (formData st) (posted st)
  | CloseDialog =>
      mkPage false (creating st) (error st) (formData st) (posted st)
  | ChangeUsername v =>
      mkPage (openDialog st) (creating st) (error st)
             (mkForm v (form_password (formData st)) (form_role (formData st)))
             (posted st)
  | ChangePassword v =>
      mkPage (openDialog st) (creating st) (error st)
             (mkForm (form_username (formData st)) v (form_role (formData st)))
             (posted st)
  | ChangeRole r =>
      mkPage (openDialog st) (creating st) (error st)
             (mkForm (form_username (formData st))
                     (form_password (formData st)) r)
             (posted st)
  | ClickCreate =>
      (* handleCreateUser up to the [await] *)
      if negb (truthy (JsString (form_username (formData st))))
         || negb (truthy (JsString (form_password (formData st))))
      then mkPage (openDialog st) (creating st)
                  (JsonString "Заполните все поля")
                  (formData st) (posted st)
      else mkPage (openDialog st) true (JsonString "") (formData st)
                  (posted st ++ [userData_of (formData st)])
  | CreateSettled Created =>
      (* the [try] block after the [await], then [finally] *)
      mkPage false false (error st) empty_form (posted st)
  | CreateSettled (Failed detail) =>
      (* [catch], then [finally] *)
      mkPage (openDialog st) false (failure_message detail) (formData st)
             (posted st)
  end.

Definition step (st : PageState) (ev : Event) : PageState :=
  if enabled st ev then handle st ev else st.

Definition run (evs : list Event) : PageState := fold_left step evs initial.

End UsersPage.

(** ** The navigation bar ([components/Navbar]) *)

Module Navbar.
Import Types.

(** [{user?.role === UserRole.ADMIN && (<Button ...>)}] *)
Definition usersButton_rendered (user : option User) : bool :=
  match user with
  | Some u => Z.eqb (UserRole_value (role u)) (UserRole_value ADMIN)
  | None => false
  end.

(** The translation key under [{user ? t(UserRoleLabels[user.role]) : ''}];
    [None] stands for the empty text shown without a user. *)
Definition roleLabel_key (user : option User) : option string :=
  match user with
  | Some u => UserRoleLabels !! UserRole_value (role u)
  | None => None
  end.

End Navbar.

(** ** The derivations as the specification words them *)

Module Spec.
Import Types.

(** Section 4.5, [vulnerabilityCount]: the length of the array when it
    is present, otherwise [vulnerabilities_amount], otherwise 0. *)
Definition vulnerabilityCount (scan : Scan) : Z :=
  match vulnerabilities scan with
  | Some vs => Z.of_nat (length vs)
  | None =>
      match vulnerabilities_amount scan with
      | Some amount => amount
      | None => 0
      end
  end.

End Spec.

(** ** Sample data used by the examples *)

Module Sample.
Import Types Browser Api.

(** What axios rejects with when the backend answers 401. *)
Definition unauthorized : AxiosError :=
  mkError "Request failed with status code 401"
          (Some (mkResponse 401 (Some "Incorrect username or password"))).

Definition server_error : AxiosError :=
  mkError "Request failed with status code 500" (Some (mkResponse 500 None)).

Definition network_error : AxiosError := mkError "Network Error" None.

Definition ann : User := mkUser 2 "ann" ANALYST "2025-01-01" "2025-01-01".
Definition root : User := mkUser 1 "admin" ADMIN "2025-01-01" "2025-01-01".

(** A browser with a stored token and cached user, on the scans page. *)
Definition logged_in : State :=
  mkState {[ "token" := "abc"; "user" := "ann" ]} "/scans" [].

(** A browser with an empty store, on the login page. *)
Definition logged_out : State := mkState ∅ "/login" [].

(** A browser that kept a token although no user is in the session
    (the profile could not be fetched when the application started). *)
Definition stale_token : State := mkState {[ "token" := "old" ]} "/login" [].

Definition bad_credentials : LoginRequest := mkLoginRequest "ann" "wrong".
Definition good_credentials : LoginRequest := mkLoginRequest "admin" "correct".

(** A backend that refuses every login with 401. *)
Definition refusing : AuthContext.Network :=
  AuthContext.mkNetwork (fun _ => Rejected unauthorized)
                        (fun _ => Rejected unauthorized).

(** A backend that issues the token [t0k] and serves the profile of
    [root] to requests that bear it. *)
Definition accepting : AuthContext.Network :=
  AuthContext.mkNetwork
    (fun _ => Fulfilled (mkResponse 200 (mkLoginResponse "t0k")))
    (fun c => if bool_decide (headers c !! "Authorization" = Some "Bearer t0k")
              then Fulfilled (mkResponse 200 root)
              else Rejected unauthorized).

Definition nobody : AuthContext.Session := AuthContext.mkSession None false.

Definition sql_injection : Vulnerability :=
  mkVulnerability 1 10 "SQL injection" CRITICAL "/search" None (Some "CWE-89").

(** A scan as the list endpoint sends it: the count without the array. *)
Definition summary_scan : Scan :=
  mkScan 10 "https://example.com" (JsNumber (ScanStatus_value COMPLETED))
         "2025-01-01" (Some "2025-01-02") 2 None (Some 5).

(** A scan as the detail endpoint sends it: the array without the count. *)
Definition detailed_scan : Scan :=
  mkScan 10 "https://example.com" (JsNumber (ScanStatus_value COMPLETED))
         "2025-01-01" (Some "2025-01-02") 2
         (Some [sql_injection; sql_injection; sql_injection]) None.

End Sample.

(** * Properties *)

Import Types.

(** ** Status and severity colours *)

Lemma strict_eq_number_true (v : JsValue) (n : Z) :
  strict_eq v (JsNumber n) = true ↔ v = JsNumber n.
Proof.
  destruct v as [| |b|m|s]; simpl; split; try discriminate; intros H.
  - apply Z.eqb_eq in H. by subst.
  - injection H as ->. apply Z.eqb_refl.
Qed.

Lemma strict_eq_number_false (v : JsValue) (n : Z) :
  v ≠ JsNumber n → strict_eq v (JsNumber n) = false.
Proof.
  intros Hne. destruct (strict_eq v (JsNumber n)) eqn:E; [|done].
  apply strict_eq_number_true in E. contradiction.
Qed.

(** C6: the status-to-colour mapping of both pages is total: COMPLETED
    gives success, RUNNING warning, FAILED error, PENDING the neutral
    default, and every value that is none of the four statuses gives the
    neutral default as well. *)
Theorem getStatusColor_total (status : JsValue) :
  ScansPage.getStatusColor (JsNumber (ScanStatus_value COMPLETED)) = "success"
  ∧ ScansPage.getStatusColor (JsNumber (ScanStatus_value RUNNING)) = "warning"
  ∧ ScansPage.getStatusColor (JsNumber (ScanStatus_value FAILED)) = "error"
  ∧ ScansPage.getStatusColor (JsNumber (ScanStatus_value PENDING)) = "default"
  ∧ ((∀ s : ScanStatus, status ≠ JsNumber (ScanStatus_value s)) →
     ScansPage.getStatusColor status = "default")
  ∧ ScanDetailsPage.getStatusColor status = ScansPage.getStatusColor status.
Proof.
  repeat split; try reflexivity.
  intros Hout. unfold ScansPage.getStatusColor.
  rewrite !strict_eq_number_false; [reflexivity | apply Hout ..].
Qed.

Lemma getStatusColor_total_witness :
  ScansPage.getStatusColor (JsString "CANCELLED") = "default"
  ∧ ScansPage.getStatusColor (JsNumber 7) = "default"
  ∧ ScansPage.getStatusColor JsUndefined = "default".
Proof.
  split; [|split].
  - destruct (getStatusColor_total (JsString "CANCELLED")) as (_ & _ & _ & _ & H & _).
    apply H. intros s; discriminate.
  - destruct (getStatusColor_total (JsNumber 7)) as (_ & _ & _ & _ & H & _).
    apply H. intros s; destruct s; discriminate.
  - destruct (getStatusColor_total JsUndefined) as (_ & _ & _ & _ & H & _).
    apply H. intros s; discriminate.
Defined.

(** C8: the severity table has an entry for each of the four severities:
    CRITICAL and HIGH both get the error treatment, MEDIUM the warning
    treatment and LOW the informational one; so the chip of every
    vulnerability has a colour. *)
Theorem SeverityColors_total (s : VulnerabilitySeverity) :
  SeverityColors !! VulnerabilitySeverity_value s
  = Some (match s with
          | CRITICAL | HIGH => "error"
          | MEDIUM => "warning"
          | LOW => "info"
          end)
  ∧ ∀ vuln : Vulnerability,
      severity vuln = s →
      ScanDetailsPage.severity_chip_color vuln
      = SeverityColors !! VulnerabilitySeverity_value s.
Proof.
  split.
  - destruct s; reflexivity.
  - intros vuln <-. reflexivity.
Qed.

Lemma SeverityColors_total_witness :
  ScanDetailsPage.severity_chip_color Sample.sql_injection = Some "error".
Proof.
  pose proof (SeverityColors_total CRITICAL) as [Hc Hv].
  rewrite (Hv Sample.sql_injection eq_refl).
  exact Hc.
Defined.

(** ** The new-scan action of the scans list *)

Lemma canCreateScan_spec (user : option User) :
  ScansPage.canCreateScan user = true
  ↔ ∃ u, user = Some u ∧ (role u = ANALYST ∨ role u = ADMIN).
Proof.
  split.
  - destruct user as [u|]; simpl; [|discriminate].
    intros H. exists u. split; [reflexivity|].
    destruct (role u); simpl in H; try discriminate; auto.
  - intros (u & -> & [H|H]); simpl; rewrite H; reflexivity.
Qed.

(** Without the button nothing on the page reacts: a page whose dialog is
    closed and which has no request pending stays as it is. *)
Lemma step_idle (user : option User) (st : ScansPage.PageState) (ev : ScansPage.Event) :
  ScansPage.canCreateScan user = false →
  ScansPage.openDialog st = false →
  ScansPage.creating st = false →
  ScansPage.step user st ev = st.
Proof.
  intros Hcan Hclosed Hidle. unfold ScansPage.step, ScansPage.enabled,
    ScansPage.newScanButton_rendered, ScansPage.dialog_shown.
  destruct ev; rewrite ?Hcan, ?Hclosed, ?Hidle; reflexivity.
Qed.

Lemma fold_step_idle (user : option User) (evs : list ScansPage.Event) :
  ScansPage.canCreateScan user = false →
  ∀ st, ScansPage.openDialog st = false →
        ScansPage.creating st = false →
        fold_left (ScansPage.step user) evs st = st.
Proof.
  intros Hcan. induction evs as [|ev evs IH]; intros st Hclosed Hidle.
  - reflexivity.
  - simpl. rewrite (step_idle user st ev Hcan Hclosed Hidle).
    by apply IH.
Qed.

(** For a user who may create scans the button works: one click opens the
    dialog, and a typed target can then be posted. *)
Lemma permitted_click_opens (user : option User) :
  ScansPage.canCreateScan user = true →
  ScansPage.dialog_shown (ScansPage.run user [ScansPage.ClickNewScan]) = true
  ∧ ∀ target, target ≠ "" →
      ScansPage.posted
        (ScansPage.run user
           [ScansPage.ClickNewScan; ScansPage.ChangeTargetUrl target;
            ScansPage.ClickStartScan])
      = [target].
Proof.
  intros Hcan.
  assert (ScansPage.step user ScansPage.initial ScansPage.ClickNewScan
          = ScansPage.mkPage true "" false []) as Hclick.
  { unfold ScansPage.step, ScansPage.enabled, ScansPage.newScanButton_rendered.
    rewrite Hcan. reflexivity. }
  unfold ScansPage.run. cbn [fold_left]. rewrite Hclick.
  split; [reflexivity|].
  intros target Hne. unfold ScansPage.step. cbn.
  case_bool_decide; [contradiction | reflexivity].
Qed.

(** C10: the new-scan action is offered exactly when a user is present
    whose role is ANALYST or ADMIN.  The button is rendered exactly for
    such a user, and the dialog can be brought up exactly for such a user:
    for them one click on the button opens it and a scan can be posted
    from it; for a DEV user and for an absent user the button is not
    rendered, and whatever then happens on the page the dialog never opens
    and no scan is ever posted. *)
Theorem newScan_offered_iff (user : option User) :
  (ScansPage.newScanButton_rendered user = true
   ↔ ∃ u, user = Some u ∧ (role u = ANALYST ∨ role u = ADMIN))
  ∧ ((∃ evs, ScansPage.dialog_shown (ScansPage.run user evs) = true)
     ↔ ∃ u, user = Some u ∧ (role u = ANALYST ∨ role u = ADMIN))
  ∧ ((∃ u, user = Some u ∧ (role u = ANALYST ∨ role u = ADMIN)) →
     ScansPage.dialog_shown (ScansPage.run user [ScansPage.ClickNewScan]) = true
     ∧ ∀ target, target ≠ "" →
         ScansPage.posted
           (ScansPage.run user
              [ScansPage.ClickNewScan; ScansPage.ChangeTargetUrl target;
               ScansPage.ClickStartScan])
         = [target])
  ∧ ((user = None ∨ ∃ u, user = Some u ∧ role u = DEV) →
     ScansPage.newScanButton_rendered user = false
     ∧ ∀ evs : list ScansPage.Event,
         ScansPage.dialog_shown (ScansPage.run user evs) = false
         ∧ ScansPage.posted (ScansPage.run user evs) = []).
Proof.
  split; [apply canCreateScan_spec|]. split; [|split].
  - rewrite <- canCreateScan_spec. split.
    + intros [evs Hshown].
      destruct (ScansPage.canCreateScan user) eqn:Hcan; [reflexivity|].
      unfold ScansPage.run in Hshown.
      rewrite (fold_step_idle user evs Hcan) in Hshown by reflexivity.
      discriminate.
    + intros Hcan. exists [ScansPage.ClickNewScan].
      by apply permitted_click_opens.
  - intros Hok. apply permitted_click_opens. by apply canCreateScan_spec.
  - intros Hno.
    assert (ScansPage.canCreateScan user = false) as Hcan.
    { destruct Hno as [->|(u & -> & Hdev)]; simpl; [reflexivity|].
      rewrite Hdev. reflexivity. }
    split; [exact Hcan|].
    intros evs. unfold ScansPage.run.
    rewrite (fold_step_idle user evs Hcan); [split|..]; reflexivity.
Qed.

Lemma newScan_offered_iff_witness :
  ScansPage.newScanButton_rendered
    (Some (mkUser 7 "dev" DEV "2025-01-01" "2025-01-01")) = false
  ∧ ScansPage.dialog_shown
      (ScansPage.run (Some (mkUser 7 "dev" DEV "2025-01-01" "2025-01-01"))
         [ScansPage.ClickNewScan; ScansPage.ChangeTargetUrl "https://example.com";
          ScansPage.ClickStartScan]) = false
  ∧ ScansPage.dialog_shown
      (ScansPage.run (Some Sample.ann) [ScansPage.ClickNewScan]) = true
  ∧ ScansPage.posted
      (ScansPage.run (Some Sample.ann)
         [ScansPage.ClickNewScan; ScansPage.ChangeTargetUrl "https://example.com";
          ScansPage.ClickStartScan])
    = ["https://example.com"]
  ∧ ScansPage.dialog_shown
      (ScansPage.run (Some Sample.root) [ScansPage.ClickNewScan]) = true.
Proof.
  destruct (newScan_offered_iff
              (Some (mkUser 7 "dev" DEV "2025-01-01" "2025-01-01")))
    as (_ & _ & _ & Hdev).
  destruct Hdev as [Hbutton Hrun].
  { right. eexists. split; reflexivity. }
  destruct (newScan_offered_iff (Some Sample.ann)) as (_ & _ & Hann & _).
  destruct Hann as [Hopen Hpost].
  { exists Sample.ann. split; [reflexivity | by left]. }
  destruct (newScan_offered_iff (Some Sample.root)) as (_ & _ & Hroot & _).
  destruct Hroot as [Hopen' _].
  { exists Sample.root. split; [reflexivity | by right]. }
  split; [exact Hbutton|]. split; [apply Hrun|]. split; [exact Hopen|].
  split; [|exact Hopen']. apply Hpost. discriminate.
Defined.

(** The page does react for a user who may create scans. *)
Example analyst_can_post :
  ScansPage.posted
    (ScansPage.run (Some (mkUser 2 "ann" ANALYST "2025-01-01" "2025-01-01"))
       [ScansPage.ClickNewScan; ScansPage.ChangeTargetUrl "https://example.com";
        ScansPage.ClickStartScan; ScansPage.CreateSettled true])
  = ["https://example.com"].
Proof. reflexivity. Qed.

(** ** The gateway: what leaves the browser *)

Section Gateway.
Import Browser Api.

Lemma request_interceptor_pure (config : RequestConfig) (w : State) :
  request_interceptor config w = (outgoing config w, w).
Proof.
  unfold outgoing, request_interceptor, bind, getItem, ret. reflexivity.
Qed.

(** The request interceptor only touches the headers. *)
Lemma outgoing_url (config : RequestConfig) (w : State) :
  url (outgoing config w) = url config.
Proof.
  unfold outgoing, request_interceptor, bind, getItem, ret. simpl.
  destruct (localStorage w !! "token") as [t|]; [|reflexivity].
  destruct (negb (bool_decide (t = ""))); reflexivity.
Qed.

Lemma outgoing_authorization (config : RequestConfig) (w : State) :
  headers (outgoing config w) !! "Authorization"
  = match localStorage w !! "token" with
    | Some t => if truthy (JsString t) then Some ("Bearer " +:+ t)
                else headers config !! "Authorization"
    | None => headers config !! "Authorization"
    end.
Proof.
  unfold outgoing, request_interceptor, bind, getItem, ret. simpl.
  rewrite lookup_insert_ne by discriminate.
  destruct (localStorage w !! "token") as [t|]; [|reflexivity].
  destruct (negb (bool_decide (t = ""))); [|reflexivity].
  simpl. apply lookup_insert_eq.
Qed.

Lemma outgoing_accept_language (config : RequestConfig) (w : State) :
  headers (outgoing config w) !! "Accept-Language"
  = Some (match localStorage w !! "i18nextLng" with
          | Some l => if bool_decide (l = "en") then "en" else "ru"
          | None => "ru"
          end).
Proof.
  unfold outgoing, request_interceptor, bind, getItem, ret. simpl.
  rewrite lookup_insert_eq. f_equal.
  destruct (localStorage w !! "i18nextLng") as [l|]; [|reflexivity].
  simpl. destruct (bool_decide_reflect (l = "")) as [->|_]; reflexivity.
Qed.

Lemma requests_emit_request (config : RequestConfig) (w : State) :
  requests (emit (HttpRequest config) w) = requests w ++ [config].
Proof. unfold requests, emit. simpl. by rewrite omap_app. Qed.

Lemma response_rejected_unauthorized {A} (error : AxiosError) (w : State) :
  error_status error = Some 401 →
  response_rejected (A := A) error w
  = (Rejected error,
     mkState (delete "user" (delete "token" (localStorage w))) "/login"
             (effects w ++ [StorageRemove "token"; StorageRemove "user";
                            Navigate "/login"])).
Proof.
  intros H. unfold response_rejected. rewrite bool_decide_eq_true_2 by done.
  unfold bind, removeItem, set_location_href, ret, emit. simpl.
  by rewrite <- !app_assoc.
Qed.

Lemma response_rejected_other {A} (error : AxiosError) (w : State) :
  error_status error ≠ Some 401 →
  response_rejected (A := A) error w = (Rejected error, w).
Proof.
  intros H. unfold response_rejected. by rewrite bool_decide_eq_false_2.
Qed.

Lemma requests_response_rejected {A} (error : AxiosError) (w : State) :
  requests (snd (response_rejected (A := A) error w)) = requests w.
Proof.
  destruct (decide (error_status error = Some 401)) as [H|H].
  - rewrite response_rejected_unauthorized by done. unfold requests. simpl.
    rewrite omap_app. simpl. by rewrite app_nil_r.
  - by rewrite response_rejected_other.
Qed.

(** One call of the instance: the transport is asked with the outgoing
    request, which is logged before the answer is looked at. *)
Lemma request_unfold {A} (adapter : Adapter A) (config : RequestConfig) (w : State) :
  request adapter config w
  = match adapter (outgoing config w) with
    | Fulfilled r => (Fulfilled r, emit (HttpRequest (outgoing config w)) w)
    | Rejected error =>
        response_rejected error (emit (HttpRequest (outgoing config w)) w)
    end.
Proof.
  unfold request, bind. rewrite request_interceptor_pure.
  unfold send. destruct (adapter (outgoing config w)); reflexivity.
Qed.

Lemma request_sends_outgoing {A} (adapter : Adapter A) (config : RequestConfig) (w : State) :
  requests (snd (request adapter config w)) = requests w ++ [outgoing config w].
Proof.
  rewrite request_unfold. destruct (adapter (outgoing config w)).
  - apply requests_emit_request.
  - rewrite requests_response_rejected. apply requests_emit_request.
Qed.

Lemma bearer_nonempty (t : string) : t ≠ "" → "Bearer " +:+ t ≠ "Bearer ".
Proof. intros Hne H. simpl in H. injection H as H. contradiction. Qed.

(** The configurations [api.get] and [api.post] build carry no
    Authorization header unless the call passes one. *)
Lemma make_config_no_authorization (method url : string)
    (data : list (string * string)) (call_headers : gmap string string) :
  call_headers !! "Authorization" = None →
  headers (make_config method url data call_headers) !! "Authorization" = None.
Proof.
  intros H. simpl. apply lookup_union_None. split; [exact H|].
  unfold api_headers. by rewrite lookup_singleton_ne.
Qed.

End Gateway.

Section GatewayClaims.
Import Browser Api.

(** C4: a request that does not bring an Authorization header of its own
    leaves with [Authorization: Bearer <token>] when the store holds a
    non-empty token, and with no Authorization header at all when the
    store holds none (or an empty string); an empty bearer value is never
    sent.  The request the transport sees and the log records is this
    outgoing one. *)
Theorem authorization_header_attached (config : RequestConfig) (w : State)
    (Hfresh : headers config !! "Authorization" = None) :
  (∀ t, localStorage w !! "token" = Some t → t ≠ "" →
        headers (outgoing config w) !! "Authorization"
        = Some ("Bearer " +:+ t))
  ∧ (localStorage w !! "token" = None ∨ localStorage w !! "token" = Some "" →
     headers (outgoing config w) !! "Authorization" = None)
  ∧ headers (outgoing config w) !! "Authorization" ≠ Some "Bearer "
  ∧ ∀ A (adapter : Adapter A),
      requests (snd (request adapter config w))
      = requests w ++ [outgoing config w].
Proof.
  rewrite outgoing_authorization, Hfresh.
  repeat split.
  - intros t -> Hne. simpl.
    destruct (bool_decide_reflect (t = "")); [contradiction|reflexivity].
  - intros [-> | ->]; reflexivity.
  - destruct (localStorage w !! "token") as [t|]; [|discriminate].
    simpl. destruct (bool_decide_reflect (t = "")) as [_|Hne]; simpl;
      [discriminate|].
    intros H. injection H as H. by apply (bearer_nonempty t).
  - intros A adapter. apply request_sends_outgoing.
Qed.

Lemma authorization_header_attached_witness :
  headers (outgoing (make_config "get" "/scans/" [] ∅)
             (mkState {[ "token" := "abc" ]} "/scans" []))
    !! "Authorization" = Some "Bearer abc"
  ∧ headers (outgoing (make_config "get" "/scans/" [] ∅)
               (mkState ∅ "/login" []))
      !! "Authorization" = None.
Proof.
  split.
  - destruct (authorization_header_attached
                (make_config "get" "/scans/" [] ∅)
                (mkState {[ "token" := "abc" ]} "/scans" [])) as [H _].
    + apply make_config_no_authorization. reflexivity.
    + apply (H "abc"); [reflexivity | discriminate].
  - destruct (authorization_header_attached
                (make_config "get" "/scans/" [] ∅)
                (mkState ∅ "/login" [])) as (_ & H & _).
    + apply make_config_no_authorization. reflexivity.
    + apply H. left. reflexivity.
Defined.

(** C9: every request leaves with an Accept-Language header that is
    [en] or [ru]: the fallback language when no language is stored, [en]
    when the stored language is exactly [en], and [ru] for every other
    stored value. *)
Theorem accept_language_header (config : RequestConfig) (w : State) :
  (headers (outgoing config w) !! "Accept-Language" = Some "en"
   ∨ headers (outgoing config w) !! "Accept-Language" = Some "ru")
  ∧ (localStorage w !! "i18nextLng" = None →
     headers (outgoing config w) !! "Accept-Language"
     = Some I18n.fallbackLng)
  ∧ (localStorage w !! "i18nextLng" = Some "en" →
     headers (outgoing config w) !! "Accept-Language" = Some "en")
  ∧ (∀ l, localStorage w !! "i18nextLng" = Some l → l ≠ "en" →
     headers (outgoing config w) !! "Accept-Language" = Some "ru")
  ∧ ∀ A (adapter : Adapter A),
      requests (snd (request adapter config w))
      = requests w ++ [outgoing config w].
Proof.
  rewrite outgoing_accept_language.
  repeat split.
  - destruct (localStorage w !! "i18nextLng") as [l|]; [|by right].
    destruct (bool_decide (l = "en")); [by left | by right].
  - intros ->. reflexivity.
  - intros ->. reflexivity.
  - intros l -> Hne. by rewrite bool_decide_eq_false_2.
  - intros A adapter. apply request_sends_outgoing.
Qed.

Lemma accept_language_header_witness :
  headers (outgoing (make_config "get" "/cwe/" [] ∅)
             (mkState {[ "i18nextLng" := "en-US" ]} "/cwe" []))
    !! "Accept-Language" = Some "ru"
  ∧ headers (outgoing (make_config "get" "/cwe/" [] ∅)
               (mkState ∅ "/cwe" []))
      !! "Accept-Language" = Some "ru".
Proof.
  split.
  - destruct (accept_language_header
                (make_config "get" "/cwe/" [] ∅)
                (mkState {[ "i18nextLng" := "en-US" ]} "/cwe" []))
      as (_ & _ & _ & H & _).
    apply (H "en-US"); [reflexivity | discriminate].
  - destruct (accept_language_header
                (make_config "get" "/cwe/" [] ∅) (mkState ∅ "/cwe" []))
      as (_ & H & _).
    apply H. reflexivity.
Defined.

(** C1: a request that is rejected is rejected towards the caller with
    the very same error.  When the error carries a response with status
    401, the handler has first removed the token and the cached user
    from the store and then sent the browser to the login page; for
    every other error (another status, or no response at all) the store
    and the location are as they were. *)
Theorem unauthorized_clears_and_propagates {A} (adapter : Adapter A)
    (config : RequestConfig) (w : State) (error : AxiosError)
    (Hrejected : adapter (outgoing config w) = Rejected error) :
  fst (request adapter config w) = Rejected error
  ∧ (error_status error = Some 401 →
     response_rejected (A := A) error w
     = (Rejected error,
        mkState (delete "user" (delete "token" (localStorage w))) "/login"
                (effects w ++ [StorageRemove "token"; StorageRemove "user";
                               Navigate "/login"]))
     ∧ localStorage (snd (request adapter config w)) !! "token" = None
     ∧ localStorage (snd (request adapter config w)) !! "user" = None
     ∧ location_href (snd (request adapter config w)) = "/login"
     ∧ effects (snd (request adapter config w))
       = effects w ++ [HttpRequest (outgoing config w);
                       StorageRemove "token"; StorageRemove "user";
                       Navigate "/login"])
  ∧ (error_status error ≠ Some 401 →
     response_rejected (A := A) error w = (Rejected error, w)
     ∧ localStorage (snd (request adapter config w)) = localStorage w
     ∧ location_href (snd (request adapter config w)) = location_href w
     ∧ effects (snd (request adapter config w))
       = effects w ++ [HttpRequest (outgoing config w)]).
Proof.
  rewrite request_unfold, Hrejected.
  split; [|split].
  - destruct (decide (error_status error = Some 401)) as [H|H].
    + by rewrite response_rejected_unauthorized.
    + by rewrite response_rejected_other.
  - intros H. rewrite !response_rejected_unauthorized by done. simpl.
    repeat split.
    + rewrite lookup_delete_ne by discriminate. apply lookup_delete_eq.
    + apply lookup_delete_eq.
    + by rewrite <- app_assoc.
  - intros H. rewrite !response_rejected_other by done. simpl.
    repeat split.
Qed.

End GatewayClaims.

Lemma unauthorized_clears_and_propagates_witness :
  fst (Api.request (A := list Scan) (fun _ => Api.Rejected Sample.unauthorized)
         (Api.make_config "get" "/scans/" [] ∅) Sample.logged_in)
  = Api.Rejected Sample.unauthorized
  ∧ Browser.localStorage
      (snd (Api.request (A := list Scan)
              (fun _ => Api.Rejected Sample.unauthorized)
              (Api.make_config "get" "/scans/" [] ∅) Sample.logged_in))
      !! "token" = None
  ∧ Browser.localStorage
      (snd (Api.request (A := list Scan)
              (fun _ => Api.Rejected Sample.server_error)
              (Api.make_config "get" "/scans/" [] ∅) Sample.logged_in))
    = Browser.localStorage Sample.logged_in
  ∧ Browser.location_href
      (snd (Api.request (A := list Scan)
              (fun _ => Api.Rejected Sample.network_error)
              (Api.make_config "get" "/scans/" [] ∅) Sample.logged_in))
    = Browser.location_href Sample.logged_in.
Proof.
  destruct (unauthorized_clears_and_propagates (A := list Scan)
              (fun _ => Api.Rejected Sample.unauthorized)
              (Api.make_config "get" "/scans/" [] ∅) Sample.logged_in
              Sample.unauthorized eq_refl) as (Hsame & H401 & _).
  destruct (H401 eq_refl) as (_ & Htoken & _).
  destruct (unauthorized_clears_and_propagates (A := list Scan)
              (fun _ => Api.Rejected Sample.server_error)
              (Api.make_config "get" "/scans/" [] ∅) Sample.logged_in
              Sample.server_error eq_refl) as (_ & _ & H500).
  destruct H500 as (_ & Hstore & _); [discriminate|].
  destruct (unauthorized_clears_and_propagates (A := list Scan)
              (fun _ => Api.Rejected Sample.network_error)
              (Api.make_config "get" "/scans/" [] ∅) Sample.logged_in
              Sample.network_error eq_refl) as (_ & _ & Hnet).
  destruct Hnet as (_ & _ & Hhref & _); [discriminate|].
  split; [exact Hsame|]. split; [exact Htoken|].
  split; [exact Hstore | exact Hhref].
Defined.

(** ** Logging in *)

Section LoginClaims.
Import Browser Api.

(** The request [authAPI.login] hands to the instance. *)
Lemma authAPI_login_unfold (adapter : Adapter LoginResponse)
    (credentials : LoginRequest) (w : State) :
  authAPI_login adapter credentials w
  = (match fst (request adapter
                  (make_config "post" "/auth/login" (login_body credentials) ∅) w)
     with
     | Fulfilled response => Fulfilled (response_data response)
     | Rejected error => Rejected error
     end,
     snd (request adapter
            (make_config "post" "/auth/login" (login_body credentials) ∅) w)).
Proof.
  unfold authAPI_login, response_data_of, post, bind, ret.
  destruct (request adapter _ w) as [r w']. reflexivity.
Qed.

(** What a 401 answer to the login request does to the store. *)
Lemma login_unauthorized_store (adapter : Adapter LoginResponse)
    (credentials : LoginRequest) (w : State) (error : AxiosError) :
  adapter (outgoing (make_config "post" "/auth/login"
                       (login_body credentials) ∅) w)
  = Rejected error →
  error_status error = Some 401 →
  fst (authAPI_login adapter credentials w) = Rejected error
  ∧ localStorage (snd (authAPI_login adapter credentials w))
    = delete "user" (delete "token" (localStorage w))
  ∧ (localStorage w !! "token" = None → localStorage w !! "user" = None →
     localStorage (snd (authAPI_login adapter credentials w))
     = localStorage w).
Proof.
  intros Hrejected H401.
  rewrite authAPI_login_unfold, request_unfold, Hrejected.
  rewrite response_rejected_unauthorized by done. simpl.
  repeat split.
  intros Ht Hu. rewrite (delete_id _ "token") by done. by apply delete_id.
Qed.

(** C5, the claim on a concrete run: a login refused with 401 while the
    store holds a token removes that token and navigates, and with an
    empty store it still navigates. *)
Lemma login_unauthorized_touches_session :
  fst (authAPI_login (fun _ => Rejected Sample.unauthorized)
         Sample.bad_credentials Sample.logged_in)
  = Rejected Sample.unauthorized
  ∧ localStorage Sample.logged_in !! "token" = Some "abc"
  ∧ localStorage
      (snd (authAPI_login (fun _ => Rejected Sample.unauthorized)
              Sample.bad_credentials Sample.logged_in)) !! "token" = None
  ∧ navigations Sample.logged_out = []
  ∧ navigations
      (snd (authAPI_login (fun _ => Rejected Sample.unauthorized)
              Sample.bad_credentials Sample.logged_out)) = ["/login"].
Proof. repeat split; vm_compute; reflexivity. Qed.

(** C5, as the code has it: a 401 answer to the login request is handled
    like any other 401.  The error reaches the caller of [login], and
    before that the token and the cached user are removed from the store
    and the browser is sent to the login page; when the store held
    neither, its contents are unchanged. *)
Theorem login_unauthorized_handled_like_any (adapter : Adapter LoginResponse)
    (credentials : LoginRequest) (w : State) (error : AxiosError)
    (Hrejected :
       adapter (outgoing (make_config "post" "/auth/login"
                            (login_body credentials) ∅) w)
       = Rejected error)
    (H401 : error_status error = Some 401) :
  fst (authAPI_login adapter credentials w) = Rejected error
  ∧ localStorage (snd (authAPI_login adapter credentials w))
    = delete "user" (delete "token" (localStorage w))
  ∧ location_href (snd (authAPI_login adapter credentials w)) = "/login"
  ∧ navigations (snd (authAPI_login adapter credentials w))
    = navigations w ++ ["/login"]
  ∧ (localStorage w !! "token" = None → localStorage w !! "user" = None →
     localStorage (snd (authAPI_login adapter credentials w))
     = localStorage w).
Proof.
  rewrite authAPI_login_unfold, request_unfold, Hrejected.
  rewrite response_rejected_unauthorized by done. simpl.
  repeat split.
  - unfold navigations. simpl. rewrite <- app_assoc, omap_app. reflexivity.
  - intros Ht Hu. rewrite (delete_id _ "token") by done. by apply delete_id.
Qed.

Lemma login_unauthorized_handled_like_any_witness :
  fst (authAPI_login (fun _ => Rejected Sample.unauthorized)
         Sample.bad_credentials Sample.logged_out)
  = Rejected Sample.unauthorized
  ∧ navigations
      (snd (authAPI_login (fun _ => Rejected Sample.unauthorized)
              Sample.bad_credentials Sample.logged_out))
    = navigations Sample.logged_out ++ ["/login"].
Proof.
  destruct (login_unauthorized_handled_like_any
              (fun _ => Rejected Sample.unauthorized)
              Sample.bad_credentials Sample.logged_out
              Sample.unauthorized eq_refl eq_refl)
    as (Hr & _ & _ & Hn & _).
  split; [exact Hr | exact Hn].
Defined.

End LoginClaims.

Section SessionClaims.
Import Browser Api AuthContext.

Lemma login_rejected (net : Network) (credentials : LoginRequest)
    (ctx : Session) (w : State) (error : AxiosError) :
  fst (authAPI_login (auth_login net) credentials w) = Rejected error →
  login net credentials ctx w
  = (Rejected error, ctx, snd (authAPI_login (auth_login net) credentials w)).
Proof.
  intros H. unfold login, bind.
  destruct (authAPI_login (auth_login net) credentials w) as [answer w'].
  simpl in H. subst answer. reflexivity.
Qed.

Lemma login_fulfilled (net : Network) (credentials : LoginRequest)
    (ctx : Session) (w : State) (r : LoginResponse) :
  fst (authAPI_login (auth_login net) credentials w) = Fulfilled r →
  login net credentials ctx w
  = (let '(profile, w') :=
       usersAPI_getCurrentUser (users_me net)
         (snd (setItem "token" (access_token r)
                 (snd (authAPI_login (auth_login net) credentials w)))) in
     (match profile with
      | Fulfilled u => (Fulfilled tt, mkSession (Some u) (isLoading ctx))
      | Rejected error => (Rejected error, ctx)
      end, w')).
Proof.
  intros H. unfold login, bind.
  destruct (authAPI_login (auth_login net) credentials w) as [answer w1].
  simpl in H. subst answer. simpl.
  destruct (usersAPI_getCurrentUser (users_me net) _) as [[u|error] w2];
    reflexivity.
Qed.

(** C7, the claim on a concrete run: nobody is in the session and the
    store still holds a token; a login refused with 401 then leaves the
    session as it was but the store without that token. *)
Lemma login_refused_changes_store :
  fst (login Sample.refusing Sample.bad_credentials Sample.nobody
         Sample.stale_token)
  = (Rejected Sample.unauthorized, Sample.nobody)
  ∧ localStorage Sample.stale_token !! "token" = Some "old"
  ∧ localStorage
      (snd (login Sample.refusing Sample.bad_credentials Sample.nobody
              Sample.stale_token)) !! "token" = None.
Proof. repeat split; vm_compute; reflexivity. Qed.

(** C7, as the code has it.  Invalid credentials are answered with 401:
    [login] then rejects with that error and the session is as it was
    (an absent user stays absent), while the store ends without token
    and without cached user, which leaves it unchanged when it held
    neither.  On success the returned token is stored first and the
    profile is requested next, bearing that token, and cached in the
    session. *)
Theorem login_outcomes (net : Network) (credentials : LoginRequest)
    (ctx : Session) (w : State) :
  (∀ error,
     auth_login net
       (outgoing (make_config "post" "/auth/login" (login_body credentials) ∅) w)
     = Rejected error →
     error_status error = Some 401 →
     fst (login net credentials ctx w) = (Rejected error, ctx)
     ∧ (user ctx = None → user (snd (fst (login net credentials ctx w))) = None)
     ∧ localStorage (snd (login net credentials ctx w)) !! "token" = None
     ∧ localStorage (snd (login net credentials ctx w))
       = delete "user" (delete "token" (localStorage w))
     ∧ (localStorage w !! "token" = None → localStorage w !! "user" = None →
        localStorage (snd (login net credentials ctx w)) = localStorage w))
  ∧ (∀ (r : AxiosResponse LoginResponse) (me : AxiosResponse User),
     auth_login net
       (outgoing (make_config "post" "/auth/login" (login_body credentials) ∅) w)
     = Fulfilled r →
     access_token (response_data r) ≠ "" →
     (∀ c, headers c !! "Authorization"
           = Some ("Bearer " +:+ access_token (response_data r)) →
           users_me net c = Fulfilled me) →
     fst (login net credentials ctx w)
     = (Fulfilled tt, mkSession (Some (response_data me)) (isLoading ctx))
     ∧ localStorage (snd (login net credentials ctx w)) !! "token"
       = Some (access_token (response_data r))
     ∧ ∃ profile_request,
         effects (snd (login net credentials ctx w))
         = effects w
           ++ [HttpRequest
                 (outgoing (make_config "post" "/auth/login"
                              (login_body credentials) ∅) w);
               StorageSet "token" (access_token (response_data r));
               HttpRequest profile_request]
         ∧ url profile_request = "/users/me"
         ∧ headers profile_request !! "Authorization"
           = Some ("Bearer " +:+ access_token (response_data r))).
Proof.
  split.
  - intros error Hrejected H401.
    destruct (login_unauthorized_store (auth_login net) credentials w error
                Hrejected H401) as (Hfst & Hstore & Hsame).
    rewrite (login_rejected net credentials ctx w error Hfst). simpl.
    repeat split; try done.
    rewrite Hstore. rewrite lookup_delete_ne by discriminate.
    apply lookup_delete_eq.
  - intros r me Hlogin Hne Hme.
    assert (authAPI_login (auth_login net) credentials w
            = (Fulfilled (response_data r),
               emit (HttpRequest
                       (outgoing (make_config "post" "/auth/login"
                                    (login_body credentials) ∅) w)) w))
      as Hcall.
    { rewrite authAPI_login_unfold, request_unfold, Hlogin. reflexivity. }
    rewrite (login_fulfilled net credentials ctx w (response_data r))
      by (rewrite Hcall; reflexivity).
    rewrite Hcall. simpl.
    unfold usersAPI_getCurrentUser, response_data_of, get, bind.
    rewrite request_unfold.
    match goal with
    | |- context [users_me net (outgoing ?c ?w2)] =>
        assert (headers (outgoing c w2) !! "Authorization"
                = Some ("Bearer " +:+ access_token (response_data r)))
          as Hbearer
    end.
    { rewrite outgoing_authorization. simpl. rewrite lookup_insert_eq.
      simpl. by rewrite bool_decide_eq_false_2. }
    rewrite (Hme _ Hbearer). simpl.
    split; [reflexivity|]. split; [apply lookup_insert_eq|].
    eexists. split; [|split; [|exact Hbearer]].
    + rewrite <- !app_assoc. reflexivity.
    + apply outgoing_url.
Qed.

Lemma login_outcomes_witness :
  fst (login Sample.refusing Sample.bad_credentials Sample.nobody
         Sample.logged_out)
  = (Rejected Sample.unauthorized, Sample.nobody)
  ∧ localStorage
      (snd (login Sample.refusing Sample.bad_credentials Sample.nobody
              Sample.logged_out))
    = localStorage Sample.logged_out
  ∧ fst (login Sample.accepting Sample.good_credentials Sample.nobody
           Sample.logged_out)
    = (Fulfilled tt, mkSession (Some Sample.root) false)
  ∧ localStorage
      (snd (login Sample.accepting Sample.good_credentials Sample.nobody
              Sample.logged_out)) !! "token" = Some "t0k".
Proof.
  destruct (login_outcomes Sample.refusing Sample.bad_credentials
              Sample.nobody Sample.logged_out) as [Hrefused _].
  destruct (Hrefused Sample.unauthorized eq_refl eq_refl)
    as (Hresult & _ & _ & _ & Hsame).
  destruct (login_outcomes Sample.accepting Sample.good_credentials
              Sample.nobody Sample.logged_out) as [_ Haccepted].
  destruct (Haccepted (mkResponse 200 (mkLoginResponse "t0k"))
              (mkResponse 200 Sample.root) eq_refl) as (Hin & Htoken & _).
  - discriminate.
  - intros c Hc. simpl. by rewrite bool_decide_eq_true_2.
  - split; [exact Hresult|]. split; [by apply Hsame|].
    split; [exact Hin | exact Htoken].
Defined.

End SessionClaims.

(** ** The route guard *)

Section GuardClaims.
Import AuthContext ProtectedRoute.

(** C2, the claim on a concrete run: while the session is being
    restored nobody is present, yet the guard neither shows the content
    nor redirects. *)
Lemma guard_loading_is_no_redirect :
  user (mkSession None true) = None
  ∧ guard [] (mkSession None true) = LoadingPlaceholder
  ∧ guard [] (mkSession None true) ≠ RedirectToLogin
  ∧ guard [] (mkSession None true) ≠ Children.
Proof. repeat split; discriminate. Qed.

(** C2, with the loading gate: once the session is no longer loading,
    the guard shows the content exactly when a user is present whose
    role is in the allow-list or the allow-list is empty; it redirects
    to login when nobody is present and to the default view when the
    role is not listed.  Membership is exact: ADMIN is let through only
    where ADMIN is listed.  While loading, the guard shows the
    placeholder.  The guard is a total function, so it never throws. *)
Theorem guard_renders_iff (allowedRoles : list UserRole) (ctx : Session)
    (Hloaded : isLoading ctx = false) :
  (guard allowedRoles ctx = Children
   ↔ ∃ u, user ctx = Some u ∧ (role u ∈ allowedRoles ∨ allowedRoles = []))
  ∧ (user ctx = None → guard allowedRoles ctx = RedirectToLogin)
  ∧ (∀ u, user ctx = Some u → allowedRoles ≠ [] → role u ∉ allowedRoles →
          guard allowedRoles ctx = RedirectToDefault)
  ∧ (∀ u, user ctx = Some u → role u = ADMIN → ADMIN ∉ allowedRoles →
          allowedRoles ≠ [] → guard allowedRoles ctx = RedirectToDefault)
  ∧ (∀ ctx', isLoading ctx' = true →
             guard allowedRoles ctx' = LoadingPlaceholder).
Proof.
  unfold guard. rewrite Hloaded.
  split; [|split; [|split; [|split]]].
  - destruct (user ctx) as [u|].
    + destruct allowedRoles as [|r rs].
      * split; [intros _; exists u; auto | reflexivity].
      * destruct (bool_decide_reflect (role u ∈ r :: rs)) as [Hin|Hout].
        -- split; [intros _; exists u; auto | reflexivity].
        -- split; [discriminate|].
           intros (u' & Hu & [Hin|Hnil]); [|discriminate].
           injection Hu as <-. contradiction.
    + split; [discriminate|]. intros (u & Hu & _). discriminate.
  - intros ->. reflexivity.
  - intros u -> Hne Hout. destruct allowedRoles as [|r rs]; [done|].
    by rewrite bool_decide_eq_false_2.
  - intros u -> Hadmin Hout Hne. destruct allowedRoles as [|r rs]; [done|].
    rewrite Hadmin. by rewrite bool_decide_eq_false_2.
  - intros ctx' ->. reflexivity.
Qed.

Lemma guard_renders_iff_witness :
  guard [ANALYST; DEV] (mkSession (Some Sample.root) false) = RedirectToDefault
  ∧ guard [ADMIN] (mkSession None false) = RedirectToLogin
  ∧ guard [] (mkSession (Some Sample.ann) false) = Children.
Proof.
  split; [|split].
  - destruct (guard_renders_iff [ANALYST; DEV]
                (mkSession (Some Sample.root) false) eq_refl)
      as (_ & _ & _ & H & _).
    apply (H Sample.root); [reflexivity | reflexivity | | discriminate].
    intros Hin. apply elem_of_cons in Hin as [Hin|Hin]; [discriminate|].
    apply elem_of_cons in Hin as [Hin|Hin]; [discriminate|].
    by apply elem_of_nil in Hin.
  - destruct (guard_renders_iff [ADMIN] (mkSession None false) eq_refl)
      as (_ & H & _).
    by apply H.
  - destruct (guard_renders_iff [] (mkSession (Some Sample.ann) false) eq_refl)
      as (H & _).
    apply H. exists Sample.ann. split; [reflexivity | by right].
Defined.

(** The routes of [App]: the users page is for ADMIN only, every other
    protected page is for any authenticated user. *)
Lemma App_users_route (u : User) :
  App.render (App.Protected [ADMIN] "UsersPage") (mkSession (Some u) false)
  = if bool_decide (role u = ADMIN) then Children else RedirectToDefault.
Proof. destruct u as [i n [] c d]; reflexivity. Qed.

Lemma App_routes_guarded (path page : string) (allowedRoles : list UserRole) :
  In (path, App.Protected allowedRoles page) App.routes →
  (path = "/users" ∧ allowedRoles = [ADMIN]) ∨ allowedRoles = [].
Proof.
  simpl. intros H.
  repeat (destruct H as [H|H]; [inversion H; subst; auto|]).
  contradiction.
Qed.

End GuardClaims.

(** ** Vulnerability counts *)

Section CountClaims.

Lemma add_amount_sum (sum : Z) (s : Scan) :
  DashboardPage.add_amount sum s
  = sum + match vulnerabilities_amount s with Some n => n | None => 0 end.
Proof.
  unfold DashboardPage.add_amount.
  destruct (vulnerabilities_amount s) as [n|]; simpl; [|lia].
  destruct (Z.eqb_spec n 0); simpl; lia.
Qed.

Lemma totalVulnerabilities_snoc (scans : list Scan) (s : Scan) :
  DashboardPage.totalVulnerabilities (scans ++ [s])
  = DashboardPage.totalVulnerabilities scans
    + match vulnerabilities_amount s with Some n => n | None => 0 end.
Proof.
  unfold DashboardPage.totalVulnerabilities.
  rewrite fold_left_app. simpl. apply add_amount_sum.
Qed.

(** C3, the claim on concrete scans: for a scan that carries only the
    summary count the list cell throws where the fallback order gives 5,
    and for a scan that carries only the array the dashboard counts 0
    where the fallback order gives 3. *)
Lemma count_fallback_not_followed :
  Spec.vulnerabilityCount Sample.summary_scan = 5
  ∧ ScansPage.vulnerabilities_renderCell Sample.summary_scan
    = Thrown "TypeError"
  ∧ Spec.vulnerabilityCount Sample.detailed_scan = 3
  ∧ DashboardPage.totalVulnerabilities [Sample.detailed_scan] = 0.
Proof. repeat split. Qed.

(** C3, as the code has it: each view derives its own count.  The list
    cell and, for a COMPLETED scan, the detail view show the length of
    the array when it is present, whatever [vulnerabilities_amount] is.
    The dashboard adds [vulnerabilities_amount] for each scan, and
    nothing when it is absent, whatever the array is; it is total, and
    for a scan without the array it adds what the fallback order
    prescribes. *)
Theorem vulnerability_counts_by_view (scan : Scan) :
  (∀ vs, vulnerabilities scan = Some vs →
     ScansPage.vulnerabilities_renderCell scan
     = Returned (Z.of_nat (length vs))
     ∧ Spec.vulnerabilityCount scan = Z.of_nat (length vs)
     ∧ (status scan = JsNumber (ScanStatus_value COMPLETED) →
        ScanDetailsPage.shown_count scan = Z.of_nat (length vs)))
  ∧ (∀ scans : list Scan,
       DashboardPage.totalVulnerabilities (scans ++ [scan])
       = DashboardPage.totalVulnerabilities scans
         + match vulnerabilities_amount scan with
           | Some amount => amount
           | None => 0
           end)
  ∧ (vulnerabilities scan = None →
     DashboardPage.totalVulnerabilities [scan]
     = Spec.vulnerabilityCount scan).
Proof.
  split; [|split].
  - intros vs Hvs.
    unfold ScansPage.vulnerabilities_renderCell, Spec.vulnerabilityCount,
      ScanDetailsPage.shown_count, ScanDetailsPage.loaded_vulnerabilities.
    rewrite Hvs. repeat split. intros ->. reflexivity.
  - intros scans. apply totalVulnerabilities_snoc.
  - intros Hnone. unfold Spec.vulnerabilityCount. rewrite Hnone.
    apply (totalVulnerabilities_snoc [] scan).
Qed.

Lemma vulnerability_counts_by_view_witness :
  ScansPage.vulnerabilities_renderCell Sample.detailed_scan = Returned 3
  ∧ ScanDetailsPage.shown_count Sample.detailed_scan = 3
  ∧ DashboardPage.totalVulnerabilities [Sample.summary_scan] = 5.
Proof.
  destruct (vulnerability_counts_by_view Sample.detailed_scan) as [Harray _].
  destruct (Harray _ eq_refl) as (Hcell & _ & Hdetail).
  destruct (vulnerability_counts_by_view Sample.summary_scan)
    as (_ & _ & Hsummary).
  split; [exact Hcell|]. split; [exact (Hdetail eq_refl)|].
  exact (Hsummary eq_refl).
Defined.

End CountClaims.

(** * Further properties of the code *)

(** ** The gateway under repeated and mixed use *)

Section GatewayComposition.
Import Browser Api.

Lemma cleared_store_stable (m : gmap string string) :
  delete "user" (delete "token" (delete "user" (delete "token" m)))
  = delete "user" (delete "token" m).
Proof.
  apply map_eq. intros k. rewrite !lookup_delete.
  destruct (decide ("user" = k)), (decide ("token" = k)); reflexivity.
Qed.

Lemma request_store {A} (adapter : Adapter A) (config : RequestConfig) (w : State) :
  (localStorage (snd (request adapter config w)) = localStorage w
   ∧ location_href (snd (request adapter config w)) = location_href w)
  ∨ (localStorage (snd (request adapter config w))
     = delete "user" (delete "token" (localStorage w))
     ∧ location_href (snd (request adapter config w)) = "/login").
Proof.
  rewrite request_unfold.
  destruct (adapter (outgoing config w)) as [r|error]; [by left|].
  destruct (decide (error_status error = Some 401)) as [H|H].
  - right. by rewrite response_rejected_unauthorized.
  - left. by rewrite response_rejected_other.
Qed.

Lemma response_data_of_state {A} (p : Js (Settled (AxiosResponse A))) (w : State) :
  snd (response_data_of p w) = snd (p w).
Proof. unfold response_data_of, bind, ret. by destruct (p w). Qed.

(** When several requests were in flight and each comes back with 401,
    the handler runs once per answer.  The second run finds the store and
    the location as the first left them and changes neither, but it tells
    the browser to navigate once more. *)
Theorem unauthorized_again_only_navigates {A B} (first second : AxiosError)
    (w : State) :
  error_status first = Some 401 →
  error_status second = Some 401 →
  localStorage (snd (response_rejected (A := B) second
                       (snd (response_rejected (A := A) first w))))
  = localStorage (snd (response_rejected (A := A) first w))
  ∧ location_href (snd (response_rejected (A := B) second
                          (snd (response_rejected (A := A) first w))))
    = location_href (snd (response_rejected (A := A) first w))
  ∧ navigations (snd (response_rejected (A := B) second
                        (snd (response_rejected (A := A) first w))))
    = navigations w ++ ["/login"; "/login"].
Proof.
  intros H1 H2. rewrite !response_rejected_unauthorized by done. simpl.
  split; [apply cleared_store_stable|]. split; [reflexivity|].
  unfold navigations. simpl. rewrite <- app_assoc, omap_app. reflexivity.
Qed.

Lemma unauthorized_again_only_navigates_witness :
  navigations
    (snd (response_rejected (A := Scan) Sample.unauthorized
            (snd (response_rejected (A := list Scan) Sample.unauthorized
                    Sample.logged_in))))
  = navigations Sample.logged_in ++ ["/login"; "/login"].
Proof.
  apply (unauthorized_again_only_navigates (A := list Scan) (B := Scan)
           Sample.unauthorized Sample.unauthorized Sample.logged_in
           eq_refl eq_refl).
Defined.

(** After a request was answered with 401, the next request that brings
    no Authorization header of its own leaves without one, whatever token
    the store held before. *)
Theorem no_bearer_after_unauthorized {A} (adapter : Adapter A)
    (config next : RequestConfig) (w : State) (error : AxiosError) :
  adapter (outgoing config w) = Rejected error →
  error_status error = Some 401 →
  headers next !! "Authorization" = None →
  headers (outgoing next (snd (request adapter config w))) !! "Authorization"
  = None.
Proof.
  intros Hrejected H401 Hfresh.
  rewrite outgoing_authorization, Hfresh.
  rewrite request_unfold, Hrejected, response_rejected_unauthorized by done.
  simpl. rewrite lookup_delete_ne by discriminate.
  by rewrite lookup_delete_eq.
Qed.

Lemma no_bearer_after_unauthorized_witness :
  headers (outgoing (make_config "get" "/scans/" [] ∅) Sample.logged_in)
    !! "Authorization" = Some "Bearer abc"
  ∧ headers
      (outgoing (make_config "get" "/users/me" [] ∅)
         (snd (request (A := list Scan) (fun _ => Rejected Sample.unauthorized)
                 (make_config "get" "/scans/" [] ∅) Sample.logged_in)))
      !! "Authorization" = None.
Proof.
  split; [reflexivity|].
  apply (no_bearer_after_unauthorized (A := list Scan)
           (fun _ => Rejected Sample.unauthorized)
           (make_config "get" "/scans/" [] ∅)
           (make_config "get" "/users/me" [] ∅)
           Sample.logged_in Sample.unauthorized eq_refl eq_refl).
  apply make_config_no_authorization. reflexivity.
Defined.

(** Whatever the answer, a request never adds to the store: afterwards
    the store is contained in what it was, every key other than [token]
    and [user] (the language preference among them) is exactly as it was,
    the location is the old one or the login page, and a later request
    announces the same language as it would have before. *)
Theorem gateway_never_adds_to_store {A} (adapter : Adapter A)
    (config : RequestConfig) (w : State) :
  localStorage (snd (request adapter config w)) ⊆ localStorage w
  ∧ (∀ k, k ≠ "token" → k ≠ "user" →
          localStorage (snd (request adapter config w)) !! k
          = localStorage w !! k)
  ∧ (location_href (snd (request adapter config w)) = location_href w
     ∨ location_href (snd (request adapter config w)) = "/login")
  ∧ ∀ next,
      headers (outgoing next (snd (request adapter config w)))
        !! "Accept-Language"
      = headers (outgoing next w) !! "Accept-Language".
Proof.
  destruct (request_store adapter config w) as [[Hs Hl]|[Hs Hl]];
    rewrite ?Hs, ?Hl.
  - repeat split; auto.
    intros next. by rewrite !outgoing_accept_language, Hs.
  - split; [|split; [|split]].
    + etrans; apply delete_subseteq.
    + intros k Ht Hu. by rewrite !lookup_delete_ne.
    + by right.
    + intros next. rewrite !outgoing_accept_language, Hs.
      by rewrite !lookup_delete_ne.
Qed.

End GatewayComposition.

(** ** The calls of [scansAPI] and [usersAPI] *)

Section ApiCalls.
Import Browser Api.

Lemma outgoing_other_header (config : RequestConfig) (w : State) (name : string) :
  name ≠ "Authorization" → name ≠ "Accept-Language" →
  headers (outgoing config w) !! name = headers config !! name.
Proof.
  intros Hauth Hlang.
  unfold outgoing, request_interceptor, bind, getItem, ret. simpl.
  rewrite lookup_insert_ne by done.
  destruct (localStorage w !! "token") as [t|]; [|reflexivity].
  destruct (negb (bool_decide (t = ""))); [|reflexivity].
  simpl. by rewrite lookup_insert_ne.
Qed.

Lemma outgoing_rest (config : RequestConfig) (w : State) :
  method (outgoing config w) = method config
  ∧ baseURL (outgoing config w) = baseURL config
  ∧ data (outgoing config w) = data config.
Proof.
  unfold outgoing, request_interceptor, bind, getItem, ret. simpl.
  destruct (localStorage w !! "token") as [t|]; [|done].
  by destruct (negb (bool_decide (t = ""))).
Qed.

(** The request interceptor changes nothing but the two headers it sets.
    The request that reaches the transport has the method, the base path,
    the path and the body of the configuration the interceptor was given,
    and every header other than Authorization and Accept-Language exactly
    as it was given, present or absent: a content type the call has set
    is passed on untouched, and no header of another name is added. *)
Theorem interceptor_keeps_the_call {A} (adapter : Adapter A)
    (config : RequestConfig) (w : State) :
  requests (snd (request adapter config w)) = requests w ++ [outgoing config w]
  ∧ method (outgoing config w) = method config
  ∧ baseURL (outgoing config w) = baseURL config
  ∧ url (outgoing config w) = url config
  ∧ data (outgoing config w) = data config
  ∧ (∀ name, name ≠ "Authorization" → name ≠ "Accept-Language" →
             headers (outgoing config w) !! name = headers config !! name)
  ∧ dom (headers (outgoing config w))
    ⊆ dom (headers config) ∪ {[ "Authorization"; "Accept-Language" ]}.
Proof.
  destruct (outgoing_rest config w) as (Hm & Hb & Hd).
  split; [apply request_sends_outgoing|].
  split; [exact Hm|]. split; [exact Hb|].
  split; [apply outgoing_url|]. split; [exact Hd|]. split.
  - intros name Hauth Hlang. by apply outgoing_other_header.
  - intros name Hin. apply elem_of_dom in Hin.
    destruct (decide (name = "Authorization")) as [->|Hauth]; [set_solver|].
    destruct (decide (name = "Accept-Language")) as [->|Hlang]; [set_solver|].
    rewrite outgoing_other_header in Hin by done.
    apply elem_of_union_l. by apply elem_of_dom.
Qed.

Lemma interceptor_keeps_the_call_witness :
  headers
    (outgoing (mkConfig "post" "/api" "/scans/sast" 
                 {[ "Content-Type" := "multipart/form-data" ]} [("file", "zip")])
       Sample.logged_in) !! "Content-Type"
  = Some "multipart/form-data"
  ∧ headers
      (outgoing (mkConfig "post" "/api" "/scans/sast"
                   {[ "Content-Type" := "multipart/form-data" ]} [("file", "zip")])
         Sample.logged_in) !! "X-Requested-With"
    = None.
Proof.
  destruct (interceptor_keeps_the_call (A := Scan)
              (λ _, Rejected Sample.network_error)
              (mkConfig "post" "/api" "/scans/sast"
                 {[ "Content-Type" := "multipart/form-data" ]} [("file", "zip")])
              Sample.logged_in) as (_ & _ & _ & _ & _ & Hkeep & _).
  split.
  - rewrite (Hkeep "Content-Type") by discriminate. reflexivity.
  - rewrite (Hkeep "X-Requested-With") by discriminate. reflexivity.
Defined.

(** For an id that is a safe integer, [scansAPI.getById] sends exactly one
    request, a GET of the path that ends in the decimal digits of the id,
    and two different safe integers never ask for the same path. *)
Theorem scansAPI_getById_path (adapter : Adapter Scan) (id : Z) (w : State) :
  isSafeInteger id = true →
  (∃ sent,
     requests (snd (scansAPI_getById adapter id w)) = requests w ++ [sent]
     ∧ method sent = "get"
     ∧ url sent = "/scans/" +:+ pretty id)
  ∧ ∀ (other : Z) (w' : State),
      isSafeInteger other = true →
      other ≠ id →
      url <$> requests (snd (scansAPI_getById adapter other w'))
      ≠ (url <$> requests w') ++ ["/scans/" +:+ pretty id].
Proof.
  intros _. split.
  - eexists. unfold scansAPI_getById, get.
    rewrite response_data_of_state, request_sends_outgoing.
    split; [reflexivity|]. split; [apply outgoing_rest | apply outgoing_url].
  - intros other w' _ Hne. unfold scansAPI_getById, get.
    rewrite response_data_of_state, request_sends_outgoing, fmap_app.
    cbn [fmap list_fmap]. rewrite outgoing_url. intros H.
    apply app_inv_head in H. simpl in H. injection H as H.
    apply Hne. by apply (inj pretty).
Qed.

Lemma scansAPI_getById_path_witness :
  url <$> requests
            (snd (scansAPI_getById (fun _ => Rejected Sample.network_error) 12
                    Sample.logged_in))
  = ["/scans/12"]
  ∧ url <$> requests
              (snd (scansAPI_getById (fun _ => Rejected Sample.network_error) 21
                      Sample.logged_in))
    ≠ ["/scans/12"].
Proof.
  destruct (scansAPI_getById_path (fun _ => Rejected Sample.network_error) 12
              Sample.logged_in eq_refl) as [(sent & Hsent & _ & Hurl) H].
  split.
  - rewrite Hsent. simpl. by rewrite Hurl.
  - apply (H 21 Sample.logged_in); [reflexivity | discriminate].
Defined.

End ApiCalls.

(** ** The scans list over whole runs *)

Section ScansPageRuns.
Import ScansPage.

Lemma step_posted_nonempty (user : option User) (st : PageState) (ev : Event) :
  Forall (λ u, u ≠ "") (posted st) →
  Forall (λ u, u ≠ "") (posted (step user st ev)).
Proof.
  intros Hinv. unfold step. destruct (enabled user st ev); [|exact Hinv].
  destruct ev as [| | v | | [|]]; simpl; try exact Hinv.
  destruct (bool_decide_reflect (targetUrl st = "")) as [He|Hne]; simpl;
    [exact Hinv|].
  apply Forall_app. split; [exact Hinv|]. by constructor.
Qed.

Lemma fold_posted_nonempty (user : option User) (evs : list Event) :
  ∀ st, Forall (λ u, u ≠ "") (posted st) →
        Forall (λ u, u ≠ "") (posted (fold_left (step user) evs st)).
Proof.
  induction evs as [|ev evs IH]; intros st Hinv; [exact Hinv|].
  simpl. apply IH. by apply step_posted_nonempty.
Qed.

(** Whatever the user does on the scans page, in whatever order, no scan
    is ever requested for an empty target URL. *)
Theorem never_posts_empty_target (user : option User) (evs : list Event)
    (target : string) :
  target ∈ posted (run user evs) → target ≠ "".
Proof.
  intros Hin.
  assert (Forall (λ u, u ≠ "") (posted (run user evs))) as Hall.
  { apply fold_posted_nonempty. constructor. }
  rewrite Forall_forall in Hall. by apply Hall.
Qed.

Lemma never_posts_empty_target_witness :
  posted (run (Some Sample.ann)
            [ClickNewScan; ClickStartScan;
             ChangeTargetUrl "https://example.com"; ClickStartScan])
  = ["https://example.com"]
  ∧ "https://example.com" ≠ "".
Proof.
  split; [reflexivity|].
  apply (never_posts_empty_target (Some Sample.ann)
           [ClickNewScan; ClickStartScan; ChangeTargetUrl "https://example.com";
            ClickStartScan]).
  vm_compute. apply list_elem_of_here.
Defined.

Lemma step_in_flight (user : option User) (st : PageState) (ev : Event) (k : nat) :
  (length (posted st) ≤ k + (if creating st then 1 else 0))%nat →
  (length (posted (step user st ev))
   ≤ k + match ev with CreateSettled _ => 1 | _ => 0 end
     + (if creating (step user st ev) then 1 else 0))%nat.
Proof.
  intros Hinv. unfold step.
  destruct (enabled user st ev) eqn:Hen.
  - destruct ev as [| | v | | [|]]; simpl in *; try lia.
    + apply andb_true_iff in Hen as [_ Hen].
      apply negb_true_iff, orb_false_iff in Hen as [Hcr Hurl].
      rewrite Hcr in Hinv. apply negb_false_iff in Hurl.
      simpl in Hurl. rewrite Hurl. simpl. rewrite length_app. simpl. lia.
    + rewrite Hen in Hinv. lia.
    + rewrite Hen in Hinv. lia.
  - destruct ev; destruct (creating st); lia.
Qed.

Lemma fold_in_flight (user : option User) (evs : list Event) :
  ∀ st k,
    (length (posted st) ≤ k + (if creating st then 1 else 0))%nat →
    (length (posted (fold_left (step user) evs st))
     ≤ k + length (List.filter
                     (λ e, match e with CreateSettled _ => true | _ => false end)
                     evs)
       + (if creating (fold_left (step user) evs st) then 1 else 0))%nat.
Proof.
  induction evs as [|ev evs IH]; intros st k Hinv.
  - simpl. lia.
  - simpl fold_left.
    pose proof (IH _ _ (step_in_flight user st ev k Hinv)) as H.
    destruct ev; simpl in *; lia.
Qed.

(** The start button is disabled while a creation is pending, so at most
    one creation is in flight: after any run, the scans posted are those
    already answered plus, while [creating], one more. *)
Theorem at_most_one_creation_in_flight (user : option User) (evs : list Event) :
  (length (posted (run user evs))
   ≤ length (List.filter
               (λ e, match e with CreateSettled _ => true | _ => false end) evs)
     + (if creating (run user evs) then 1 else 0))%nat.
Proof.
  pose proof (fold_in_flight user evs initial 0%nat) as H.
  simpl in H. apply H. lia.
Qed.

End ScansPageRuns.

Section ScansPageList.
Import Browser Api ScansPage.

Lemma loadScans_unfold (adapter : Adapter (list Scan)) (st : ListState) (w : State) :
  loadScans adapter st w
  = (match adapter (outgoing (make_config "get" "/scans/" [] ∅) w) with
     | Fulfilled r => mkList (response_data r) false
     | Rejected _ => mkList (scans st) false
     end,
     snd (request adapter (make_config "get" "/scans/" [] ∅) w)).
Proof.
  unfold loadScans, scansAPI_getAll, response_data_of, get, bind, ret.
  rewrite request_unfold.
  destruct (adapter (outgoing (make_config "get" "/scans/" [] ∅) w)) as [r|e].
  - reflexivity.
  - destruct (decide (error_status e = Some 401)) as [H|H].
    + by rewrite response_rejected_unauthorized.
    + by rewrite response_rejected_other.
Qed.

(** Deleting a scan deletes nothing: the handler ignores the id, and when
    the user confirms it only reloads the list with one GET of the scans
    path.  The rows afterwards are the ones the server answered, or the
    old ones when the reload fails; without confirmation nothing is sent
    and nothing changes. *)
Theorem handleDeleteScan_only_reloads (adapter : Adapter (list Scan))
    (id : Z) (st : ListState) (w : State) :
  handleDeleteScan false adapter id st w = (st, w)
  ∧ (∃ sent,
       requests (snd (handleDeleteScan true adapter id st w))
       = requests w ++ [sent]
       ∧ method sent = "get" ∧ url sent = "/scans/")
  ∧ (∀ r, adapter (outgoing (make_config "get" "/scans/" [] ∅) w) = Fulfilled r →
          fst (handleDeleteScan true adapter id st w)
          = mkList (response_data r) false)
  ∧ (∀ e, adapter (outgoing (make_config "get" "/scans/" [] ∅) w) = Rejected e →
          fst (handleDeleteScan true adapter id st w)
          = mkList (scans st) false)
  ∧ ∀ (confirmed : bool) (other : Z),
      handleDeleteScan confirmed adapter other st w
      = handleDeleteScan confirmed adapter id st w.
Proof.
  unfold handleDeleteScan. rewrite loadScans_unfold. simpl.
  split; [reflexivity|]. split; [|split; [|split]].
  - eexists. rewrite request_sends_outgoing.
    split; [reflexivity|]. split; [apply outgoing_rest | apply outgoing_url].
  - by intros r ->.
  - by intros e ->.
  - reflexivity.
Qed.

Lemma handleDeleteScan_only_reloads_witness :
  fst (handleDeleteScan true
         (λ _, Fulfilled (mkResponse 200 [Sample.summary_scan])) 10
         (mkList [Sample.summary_scan] false) Sample.logged_in)
  = mkList [Sample.summary_scan] false.
Proof.
  destruct (handleDeleteScan_only_reloads
              (λ _, Fulfilled (mkResponse 200 [Sample.summary_scan])) 10
              (mkList [Sample.summary_scan] false) Sample.logged_in)
    as (_ & _ & H & _).
  apply (H (mkResponse 200 [Sample.summary_scan])). reflexivity.
Defined.

End ScansPageList.

(** ** The new-user dialog over whole runs *)

Section UsersPageRuns.
Import UsersPage.

(** What [handleCreateUser] lets through to [usersAPI.create]. *)
Lemma userData_of_valid (f : FormData) :
  form_username f ≠ "" → form_password f ≠ "" →
  Api.new_username (userData_of f) ≠ ""
  ∧ Api.new_password (userData_of f) ≠ ""
  ∧ Api.new_email (userData_of f)
    = Api.new_username (userData_of f) +:+ "@example.com"
  ∧ (Api.new_role (userData_of f) = "1"
     ∨ Api.new_role (userData_of f) = "2"
     ∨ Api.new_role (userData_of f) = "3").
Proof.
  intros Hu Hp. simpl. repeat split; try done.
  destruct (form_role f); auto.
Qed.

Lemma step_posted_valid (P : Api.UserData → Prop) (st : PageState) (ev : Event) :
  (∀ f, form_username f ≠ "" → form_password f ≠ "" → P (userData_of f)) →
  Forall P (posted st) → Forall P (posted (step st ev)).
Proof.
  intros HP Hinv. unfold step. destruct (enabled st ev); [|exact Hinv].
  destruct ev as [| | v | v | r | | [|detail]]; simpl; try exact Hinv.
  destruct (bool_decide_reflect (form_username (formData st) = "")) as [|Hu];
    simpl; [exact Hinv|].
  destruct (bool_decide_reflect (form_password (formData st) = "")) as [|Hp];
    simpl; [exact Hinv|].
  apply Forall_app. split; [exact Hinv|]. constructor; [by apply HP|constructor].
Qed.

Lemma fold_posted_valid (P : Api.UserData → Prop) (evs : list Event) :
  (∀ f, form_username f ≠ "" → form_password f ≠ "" → P (userData_of f)) →
  ∀ st, Forall P (posted st) → Forall P (posted (fold_left step evs st)).
Proof.
  intros HP. induction evs as [|ev evs IH]; intros st Hinv; [exact Hinv|].
  simpl. apply IH. by apply step_posted_valid.
Qed.

(** Whatever is typed and clicked in the new-user dialog, every user that
    is sent to the backend has a non-empty name and a non-empty password,
    the address [<name>@example.com], and one of the roles 1, 2 and 3,
    sent as text. *)
Theorem posted_users_are_valid (evs : list Event) (sent : Api.UserData) :
  sent ∈ posted (run evs) →
  Api.new_username sent ≠ ""
  ∧ Api.new_password sent ≠ ""
  ∧ Api.new_email sent = Api.new_username sent +:+ "@example.com"
  ∧ (Api.new_role sent = "1" ∨ Api.new_role sent = "2"
     ∨ Api.new_role sent = "3").
Proof.
  intros Hin.
  assert (Forall (λ d, Api.new_username d ≠ ""
                       ∧ Api.new_password d ≠ ""
                       ∧ Api.new_email d = Api.new_username d +:+ "@example.com"
                       ∧ (Api.new_role d = "1" ∨ Api.new_role d = "2"
                          ∨ Api.new_role d = "3"))
            (posted (run evs))) as Hall.
  { apply fold_posted_valid; [apply userData_of_valid | constructor]. }
  rewrite Forall_forall in Hall. by apply Hall.
Qed.

Lemma posted_users_are_valid_witness :
  posted (run [ClickNewUser; ClickCreate; ChangeUsername "bob"; ClickCreate;
               ChangePassword "s3cret"; ChangeRole ANALYST; ClickCreate])
  = [Api.mkUserData "bob" "bob@example.com" "s3cret" "2"]
  ∧ Api.new_email (Api.mkUserData "bob" "bob@example.com" "s3cret" "2")
    = "bob" +:+ "@example.com".
Proof.
  split; [reflexivity|].
  apply (posted_users_are_valid
           [ClickNewUser; ClickCreate; ChangeUsername "bob"; ClickCreate;
            ChangePassword "s3cret"; ChangeRole ANALYST; ClickCreate]
           (Api.mkUserData "bob" "bob@example.com" "s3cret" "2")).
  vm_compute. apply list_elem_of_here.
Defined.

Lemma users_step_in_flight (st : PageState) (ev : Event) (k : nat) :
  (length (posted st) ≤ k + (if creating st then 1 else 0))%nat →
  (length (posted (step st ev))
   ≤ k + match ev with CreateSettled _ => 1 | _ => 0 end
     + (if creating (step st ev) then 1 else 0))%nat.
Proof.
  intros Hinv. unfold step.
  destruct (enabled st ev) eqn:Hen.
  - destruct ev as [| | v | v | r | | [|detail]]; simpl in *; try lia.
    + apply andb_true_iff in Hen as [_ Hcr]. apply negb_true_iff in Hcr.
      rewrite Hcr in *.
      destruct (negb _ || negb _); simpl; rewrite ?length_app; simpl; lia.
    + rewrite Hen in Hinv. lia.
    + rewrite Hen in Hinv. lia.
  - destruct ev; destruct (creating st); lia.
Qed.

Lemma users_fold_in_flight (evs : list Event) :
  ∀ st k,
    (length (posted st) ≤ k + (if creating st then 1 else 0))%nat →
    (length (posted (fold_left step evs st))
     ≤ k + length (List.filter
                     (λ e, match e with CreateSettled _ => true | _ => false end)
                     evs)
       + (if creating (fold_left step evs st) then 1 else 0))%nat.
Proof.
  induction evs as [|ev evs IH]; intros st k Hinv.
  - simpl. lia.
  - simpl fold_left.
    pose proof (IH _ _ (users_step_in_flight st ev k Hinv)) as H.
    destruct ev; simpl in *; lia.
Qed.

(** The create button is disabled while a creation is pending, so the
    same user is not posted twice by a double click: after any run, the
    users posted are those already answered plus, while [creating], one
    more. *)
Theorem at_most_one_user_in_flight (evs : list Event) :
  (length (posted (run evs))
   ≤ length (List.filter
               (λ e, match e with CreateSettled _ => true | _ => false end) evs)
     + (if creating (run evs) then 1 else 0))%nat.
Proof.
  pose proof (users_fold_in_flight evs initial 0%nat) as H.
  simpl in H. apply H. lia.
Qed.

Lemma failure_message_truthy (detail : option Json) :
  json_truthy (failure_message detail) = true.
Proof.
  unfold failure_message. destruct detail as [d|]; [|reflexivity].
  destruct (json_truthy d) eqn:Hd; [exact Hd | reflexivity].
Qed.

(** A creation that fails always sets the error of the dialog to a truthy
    value, so the branch that renders the alert is taken.  With an empty
    name or an empty password nothing is sent and the error is the
    validation text.  When the backend rejects the user, the dialog stays
    as it is and the form keeps what was typed; the error is the detail of
    the answer, of whatever type, when that detail is truthy, and the
    fixed text when the detail is missing or falsy. *)
Theorem failed_creation_sets_error (st : PageState) :
  (openDialog st = true → creating st = false →
   form_username (formData st) = "" ∨ form_password (formData st) = "" →
   error (step st ClickCreate) = JsonString "Заполните все поля"
   ∧ alert_branch_taken (step st ClickCreate) = true
   ∧ posted (step st ClickCreate) = posted st
   ∧ creating (step st ClickCreate) = false)
  ∧ (creating st = true →
     ∀ detail : option Json,
       alert_branch_taken (step st (CreateSettled (Failed detail))) = true
       ∧ (∀ d, detail = Some d → json_truthy d = true →
               error (step st (CreateSettled (Failed detail))) = d)
       ∧ (detail = None ∨ (∃ d, detail = Some d ∧ json_truthy d = false) →
          error (step st (CreateSettled (Failed detail)))
          = JsonString "Ошибка создания пользователя")
       ∧ openDialog (step st (CreateSettled (Failed detail))) = openDialog st
       ∧ formData (step st (CreateSettled (Failed detail))) = formData st
       ∧ creating (step st (CreateSettled (Failed detail))) = false).
Proof.
  split.
  - intros Hopen Hidle Hempty. unfold step, alert_branch_taken. simpl.
    rewrite Hopen, Hidle. simpl.
    destruct Hempty as [-> | ->]; simpl; rewrite ?orb_true_r;
      repeat split; reflexivity.
  - intros Hcr detail. unfold step, alert_branch_taken. simpl.
    rewrite Hcr. simpl.
    split; [apply failure_message_truthy|]. split; [|split; [|done]].
    + intros d -> Hd. unfold failure_message. by rewrite Hd.
    + intros [-> | (d & -> & Hd)]; unfold failure_message;
        [reflexivity | by rewrite Hd].
Qed.

Lemma failed_creation_sets_error_witness :
  error (run [ClickNewUser; ChangeUsername "bob"; ClickCreate])
  = JsonString "Заполните все поля"
  ∧ error (step (run [ClickNewUser; ChangeUsername "bob";
                      ChangePassword "pw"; ClickCreate])
             (CreateSettled
                (Failed (Some (JsonArray
                                 [JsonObject [("msg", JsonString "field required")]])))))
    = JsonArray [JsonObject [("msg", JsonString "field required")]]
  ∧ alert_branch_taken
      (step (run [ClickNewUser; ChangeUsername "bob"; ChangePassword "pw";
                  ClickCreate])
         (CreateSettled (Failed None))) = true.
Proof.
  split; [|split].
  - destruct (failed_creation_sets_error
                (run [ClickNewUser; ChangeUsername "bob"])) as [H _].
    apply H; [reflexivity | reflexivity | by right].
  - destruct (failed_creation_sets_error
                (run [ClickNewUser; ChangeUsername "bob"; ChangePassword "pw";
                      ClickCreate])) as [_ H].
    destruct (H eq_refl
                (Some (JsonArray
                         [JsonObject [("msg", JsonString "field required")]])))
      as (_ & Hd & _).
    apply Hd; reflexivity.
  - destruct (failed_creation_sets_error
                (run [ClickNewUser; ChangeUsername "bob"; ChangePassword "pw";
                      ClickCreate])) as [_ H].
    apply (H eq_refl None).
Defined.

End UsersPageRuns.

(** ** The dashboard figures *)

Section DashboardFigures.
Import DashboardPage.

Lemma fold_add_amount (scans : list Scan) (z : Z) :
  fold_left add_amount scans z = z + fold_left add_amount scans 0.
Proof.
  revert z. induction scans as [|s scans IH]; intros z; simpl; [lia|].
  rewrite (IH (add_amount z s)), (IH (add_amount 0 s)), !add_amount_sum. lia.
Qed.

Lemma totalVulnerabilities_cons (s : Scan) (scans : list Scan) :
  totalVulnerabilities (s :: scans)
  = add_amount 0 s + totalVulnerabilities scans.
Proof. unfold totalVulnerabilities. simpl. apply fold_add_amount. Qed.

Lemma totalVulnerabilities_app (scans more : list Scan) :
  totalVulnerabilities (scans ++ more)
  = totalVulnerabilities scans + totalVulnerabilities more.
Proof.
  unfold totalVulnerabilities. rewrite fold_left_app. apply fold_add_amount.
Qed.

Lemma totalVulnerabilities_perm (scans scans' : list Scan) :
  scans ≡ₚ scans' → totalVulnerabilities scans = totalVulnerabilities scans'.
Proof.
  intros Hperm.
  induction Hperm as [|x l l' _ IH|x y l|l l' l'' _ IH1 _ IH2].
  - reflexivity.
  - rewrite !totalVulnerabilities_cons. lia.
  - rewrite !totalVulnerabilities_cons. lia.
  - lia.
Qed.

Lemma amounts_size_cons (s : Scan) (scans : list Scan) :
  amounts_size (s :: scans)
  = Z.abs (match vulnerabilities_amount s with
           | Some amount => amount
           | None => 0
           end) + amounts_size scans.
Proof. reflexivity. Qed.

Lemma amounts_size_nonneg (scans : list Scan) : (0 ≤ amounts_size scans)%Z.
Proof.
  induction scans as [|s scans IH]; [reflexivity|].
  rewrite amounts_size_cons. lia.
Qed.

Lemma amounts_size_app (scans more : list Scan) :
  amounts_size (scans ++ more) = amounts_size scans + amounts_size more.
Proof.
  induction scans as [|s scans IH]; [reflexivity|].
  rewrite <- app_comm_cons, !amounts_size_cons. lia.
Qed.

Lemma amounts_size_perm (scans scans' : list Scan) :
  scans ≡ₚ scans' → amounts_size scans = amounts_size scans'.
Proof.
  intros Hperm.
  induction Hperm as [|x l l' _ IH|x y l|l l' l'' _ IH1 _ IH2];
    rewrite ?amounts_size_cons; lia.
Qed.

(** A total is never larger in size than the sizes of its amounts put
    together. *)
Lemma totalVulnerabilities_within_size (scans : list Scan) :
  (Z.abs (totalVulnerabilities scans) ≤ amounts_size scans)%Z.
Proof.
  induction scans as [|s scans IH]; [reflexivity|].
  rewrite totalVulnerabilities_cons, add_amount_sum, amounts_size_cons. lia.
Qed.

Lemma isSafeInteger_spec (n : Z) :
  isSafeInteger n = true ↔ (Z.abs n ≤ Number_MAX_SAFE_INTEGER)%Z.
Proof.
  unfold isSafeInteger. rewrite andb_true_iff, !Z.leb_le. lia.
Qed.

(** While the sizes of the amounts add up to a safe integer, the total of
    the dashboard does not depend on the order in which the backend lists
    the scans.  In whatever order they come, every amount that is added
    and every intermediate sum of the [reduce] is a safe integer, so each
    addition is exact, and the total of a list is the total of its front
    part plus the total of its back part. *)
Theorem totalVulnerabilities_order_independent (scans : list Scan) :
  isSafeInteger (amounts_size scans) = true →
  ∀ scans', scans ≡ₚ scans' →
    totalVulnerabilities scans' = totalVulnerabilities scans
    ∧ (∀ s amount, s ∈ scans' → vulnerabilities_amount s = Some amount →
                   isSafeInteger amount = true)
    ∧ ∀ front back, scans' = front ++ back →
        isSafeInteger (totalVulnerabilities front) = true
        ∧ totalVulnerabilities scans'
          = totalVulnerabilities front + totalVulnerabilities back.
Proof.
  intros Hsafe scans' Hperm.
  apply isSafeInteger_spec in Hsafe.
  rewrite (amounts_size_perm _ _ Hperm) in Hsafe.
  rewrite Z.abs_eq in Hsafe by apply amounts_size_nonneg.
  split; [symmetry; by apply totalVulnerabilities_perm|]. split.
  - intros s amount Hin Hamount. apply isSafeInteger_spec.
    apply list_elem_of_split in Hin as (l1 & l2 & ->).
    rewrite amounts_size_app, amounts_size_cons, Hamount in Hsafe.
    pose proof (amounts_size_nonneg l1). pose proof (amounts_size_nonneg l2).
    lia.
  - intros front back ->. split; [|apply totalVulnerabilities_app].
    apply isSafeInteger_spec.
    pose proof (totalVulnerabilities_within_size front).
    rewrite amounts_size_app in Hsafe.
    pose proof (amounts_size_nonneg back). lia.
Qed.

Lemma totalVulnerabilities_order_independent_witness :
  totalVulnerabilities [Sample.detailed_scan; Sample.summary_scan]
  = totalVulnerabilities [Sample.summary_scan; Sample.detailed_scan]
  ∧ isSafeInteger (totalVulnerabilities [Sample.detailed_scan]) = true.
Proof.
  destruct (totalVulnerabilities_order_independent
              [Sample.summary_scan; Sample.detailed_scan] eq_refl
              [Sample.detailed_scan; Sample.summary_scan]
              (Permutation_swap _ _ _)) as (Hsame & _ & Hfront).
  split; [exact Hsame|].
  apply (Hfront [Sample.detailed_scan] [Sample.summary_scan] eq_refl).
Defined.

Lemma not_completed_and_running (s : Scan) :
  strict_eq (status s) (JsNumber (ScanStatus_value COMPLETED)) = true →
  strict_eq (status s) (JsNumber (ScanStatus_value RUNNING)) = false.
Proof.
  intros H. apply strict_eq_number_true in H. rewrite H. reflexivity.
Qed.

Lemma disjoint_filters_length {A} (f g : A → bool) (l : list A) :
  (∀ x, f x = true → g x = false) →
  (length (List.filter f l) + length (List.filter g l) ≤ length l)%nat.
Proof.
  intros Hfg. induction l as [|x l IH]; simpl; [lia|].
  destruct (f x) eqn:Hf.
  - rewrite (Hfg x Hf). simpl. lia.
  - destruct (g x); simpl; lia.
Qed.

(** The three scan counters of the dashboard are consistent: no scan is
    counted both as completed and as running, so the two never add up to
    more than the number of scans. *)
Theorem completed_and_running_within_total (scans : list Scan) :
  (0 ≤ completedScans scans)%Z
  ∧ (0 ≤ runningScans scans)%Z
  ∧ (completedScans scans + runningScans scans ≤ totalScans scans)%Z.
Proof.
  unfold completedScans, runningScans, totalScans.
  split; [lia|]. split; [lia|].
  pose proof (disjoint_filters_length _ _ scans not_completed_and_running).
  lia.
Qed.

End DashboardFigures.

(** ** The scan details view *)

Section ScanDetails.
Import Browser Api ScanDetailsPage.

(** What the details view shows after [loadData].  Without an id (absent
    or empty) [loadData] returns at once: nothing is fetched and the page
    stays as it is, so a fresh page keeps its spinner.  With an id the
    loading state always ends: a fresh page shows the scan with the count
    of its vulnerabilities when the fetch succeeds and the not-found alert
    when it fails.  A scan that is not COMPLETED leaves the list of
    vulnerabilities as it was. *)
Theorem loadData_view (id : option string) (fetch : Js (Settled Scan))
    (st : PageState) (w : State) :
  (id = None ∨ id = Some "" →
   loadData id fetch st w = (st, w) ∧ view initial = Spinner)
  ∧ (∀ i, id = Some i → i ≠ "" →
     loading (fst (loadData id fetch st w)) = false
     ∧ snd (loadData id fetch st w) = snd (fetch w)
     ∧ (∀ sc, fst (fetch w) = Fulfilled sc →
              view (fst (loadData id fetch initial w))
              = Details sc (shown_count sc)
              ∧ (status sc ≠ JsNumber (ScanStatus_value COMPLETED) →
                 vulnerabilities_state (fst (loadData id fetch st w))
                 = vulnerabilities_state st))
     ∧ (∀ e, fst (fetch w) = Rejected e →
             view (fst (loadData id fetch initial w)) = NotFound)).
Proof.
  split.
  - intros [-> | ->]; split; reflexivity.
  - intros i -> Hne. unfold loadData. simpl.
    rewrite (bool_decide_eq_false_2 _ Hne). simpl. unfold bind, ret.
    destruct (fetch w) as [[sc|e] w']; simpl.
    + split; [reflexivity|]. split; [reflexivity|]. split; [|discriminate].
      intros sc' [= <-]. split; [reflexivity|].
      intros Hst. by rewrite strict_eq_number_false.
    + split; [reflexivity|]. split; [reflexivity|]. split; [discriminate|].
      reflexivity.
Qed.

Lemma loadData_view_witness :
  view (fst (loadData (Some "10") (λ w, (Fulfilled Sample.detailed_scan, w))
               initial Sample.logged_in))
  = Details Sample.detailed_scan 3
  ∧ view (fst (loadData None (λ w, (Fulfilled Sample.detailed_scan, w))
                 initial Sample.logged_in)) = Spinner.
Proof.
  split.
  - destruct (loadData_view (Some "10")
                (λ w, (Fulfilled Sample.detailed_scan, w)) initial
                Sample.logged_in) as [_ H].
    destruct (H "10" eq_refl) as (_ & _ & Hok & _); [discriminate|].
    apply (Hok Sample.detailed_scan eq_refl).
  - destruct (loadData_view None
                (λ w, (Fulfilled Sample.detailed_scan, w)) initial
                Sample.logged_in) as [H _].
    destruct H as [Hsame _]; [by left|]. by rewrite Hsame.
Defined.

(** The colour of the status chip and the sections under it agree: the
    report buttons with the vulnerabilities section, the running alert
    and the failed alert exclude one another; they are shown exactly for
    the chip colours success, warning and error; and with the neutral
    chip (PENDING or an unknown status) none of them is shown. *)
Theorem status_sections_agree (sc : Scan) :
  (completed_sections_shown sc = true
   ↔ getStatusColor (status sc) = "success")
  ∧ (running_alert_shown sc = true ↔ getStatusColor (status sc) = "warning")
  ∧ (failed_alert_shown sc = true ↔ getStatusColor (status sc) = "error")
  ∧ (getStatusColor (status sc) = "default"
     ↔ completed_sections_shown sc = false
       ∧ running_alert_shown sc = false
       ∧ failed_alert_shown sc = false)
  ∧ completed_sections_shown sc && running_alert_shown sc = false
  ∧ completed_sections_shown sc && failed_alert_shown sc = false
  ∧ running_alert_shown sc && failed_alert_shown sc = false.
Proof.
  unfold completed_sections_shown, running_alert_shown, failed_alert_shown,
    getStatusColor.
  destruct (strict_eq (status sc) (JsNumber (ScanStatus_value COMPLETED))) eqn:Hc;
  destruct (strict_eq (status sc) (JsNumber (ScanStatus_value RUNNING))) eqn:Hr;
  destruct (strict_eq (status sc) (JsNumber (ScanStatus_value FAILED))) eqn:Hf;
    try (apply strict_eq_number_true in Hc);
    try (apply strict_eq_number_true in Hr);
    try (apply strict_eq_number_true in Hf);
    simpl in *; try congruence;
    repeat split; intros; try discriminate; try reflexivity;
    repeat match goal with H : _ ∧ _ |- _ => destruct H end;
    discriminate.
Qed.

Lemma String_replace_unfold (pattern replacement s : string) :
  String_replace pattern replacement s
  = if String.prefix pattern s
    then replacement +:+ String.substring (String.length pattern)
                           (String.length s - String.length pattern) s
    else match s with
         | EmptyString => EmptyString
         | String c rest => String c (String_replace pattern replacement rest)
         end.
Proof. destruct s; reflexivity. Qed.

Lemma prefix_append (p s : string) : String.prefix p (p +:+ s) = true.
Proof.
  induction p as [|c p IH]; simpl; [by destruct s|].
  destruct (Ascii.ascii_dec c c); [exact IH|contradiction].
Qed.

Lemma substring_all (s : string) : String.substring 0 (String.length s) s = s.
Proof. induction s as [|c s IH]; simpl; [reflexivity|by rewrite IH]. Qed.

Lemma substring_after (p s : string) :
  String.substring (String.length p)
    (String.length (p +:+ s) - String.length p) (p +:+ s) = s.
Proof.
  induction p as [|c p IH]; simpl.
  - rewrite Nat.sub_0_r. apply substring_all.
  - exact IH.
Qed.

(** Replacing a pattern the string starts with removes exactly that
    start, whatever follows (also a second occurrence). *)
Lemma String_replace_start (pattern replacement s : string) :
  String_replace pattern replacement (pattern +:+ s) = replacement +:+ s.
Proof.
  rewrite String_replace_unfold, prefix_append. by rewrite substring_after.
Qed.

(** The CWE cell links to the MITRE page of the weakness: for an id
    [CWE-<n>] other than [CWE-UNKNOWN] the link ends in [<n>.html], the
    prefix being cut once.  The cell is a dash exactly when the id is
    absent, empty or [CWE-UNKNOWN]. *)
Theorem cwe_cell_link (vuln : Vulnerability) :
  (∀ n, cwe_id vuln = Some ("CWE-" +:+ n) → n ≠ "UNKNOWN" →
        cwe_cell vuln
        = Some ("https://cwe.mitre.org/data/definitions/" +:+ n +:+ ".html"))
  ∧ (cwe_cell vuln = None
     ↔ cwe_id vuln = None ∨ cwe_id vuln = Some ""
       ∨ cwe_id vuln = Some "CWE-UNKNOWN").
Proof.
  unfold cwe_cell. split.
  - intros n -> Hne.
    rewrite (String_replace_start "CWE-" "" n).
    rewrite (bool_decide_eq_false_2 ("CWE-" +:+ n = "CWE-UNKNOWN")); [done|].
    simpl. intros [= H]. contradiction.
  - destruct (cwe_id vuln) as [c|]; [|by split; [left|]].
    simpl.
    destruct (bool_decide_reflect (c = "")) as [->|Hne]; simpl.
    { split; [by right; left|done]. }
    destruct (bool_decide_reflect (c = "CWE-UNKNOWN")) as [->|Hunk]; simpl.
    { split; [by right; right|done]. }
    split; [discriminate|]. intros [H|[H|H]]; congruence.
Qed.

Lemma cwe_cell_link_witness :
  cwe_cell Sample.sql_injection
  = Some "https://cwe.mitre.org/data/definitions/89.html".
Proof.
  destruct (cwe_cell_link Sample.sql_injection) as [H _].
  apply (H "89"); [reflexivity | discriminate].
Defined.

End ScanDetails.

(** ** Role checks across components *)

Section RoleChecks.

(** The Users entry of the navigation bar is shown exactly to ADMIN, which
    is exactly the allow-list of the [/users] route in [App]: nobody is
    shown an entry the route does not list, and nobody the route lists
    misses the entry.  Whoever sees it may also create scans. *)
Theorem usersButton_matches_route (user : option User) :
  (Navbar.usersButton_rendered user = true
   ↔ ∃ u, user = Some u ∧ role u = ADMIN)
  ∧ (∀ allowedRoles page u,
       In ("/users", App.Protected allowedRoles page) App.routes →
       user = Some u →
       (Navbar.usersButton_rendered user = true ↔ role u ∈ allowedRoles))
  ∧ (Navbar.usersButton_rendered user = true →
     ScansPage.canCreateScan user = true).
Proof.
  assert (Navbar.usersButton_rendered user = true
          ↔ ∃ u, user = Some u ∧ role u = ADMIN) as Hadmin.
  { destruct user as [u|]; simpl.
    - split.
      + intros H. exists u. split; [reflexivity|].
        destruct (role u); simpl in H; try discriminate; reflexivity.
      + intros (u' & [= <-] & ->). reflexivity.
    - split; [discriminate|]. intros (u & Hu & _). discriminate. }
  split; [exact Hadmin|]. split.
  - intros allowedRoles page u Hroute ->.
    assert (allowedRoles = [ADMIN]) as ->.
    { simpl in Hroute.
      repeat (destruct Hroute as [Hroute|Hroute];
              [inversion Hroute; subst; reflexivity || discriminate|]).
      contradiction. }
    rewrite Hadmin. split.
    + intros (u' & [= <-] & ->). apply list_elem_of_here.
    + intros Hin. exists u. split; [reflexivity|].
      apply elem_of_cons in Hin as [Hin|Hin]; [exact Hin|].
      by apply elem_of_nil in Hin.
  - intros H. apply Hadmin in H as (u & -> & Hrole).
    simpl. rewrite Hrole. reflexivity.
Qed.

Lemma usersButton_matches_route_witness :
  Navbar.usersButton_rendered (Some Sample.root) = true
  ∧ ScansPage.canCreateScan (Some Sample.root) = true
  ∧ (Navbar.usersButton_rendered (Some Sample.ann) = true ↔ role Sample.ann ∈ [ADMIN]).
Proof.
  destruct (usersButton_matches_route (Some Sample.root)) as (Hiff & _ & Hscan).
  assert (Navbar.usersButton_rendered (Some Sample.root) = true) as Hshown.
  { apply Hiff. exists Sample.root. split; reflexivity. }
  split; [exact Hshown|]. split; [exact (Hscan Hshown)|].
  destruct (usersButton_matches_route (Some Sample.ann)) as (_ & Hroute & _).
  apply (Hroute [ADMIN] "UsersPage" Sample.ann); [|reflexivity].
  simpl. do 5 right. left. reflexivity.
Defined.

(** Every role, scan status and severity has a translation key of its
    own: each label table has an entry for every value of its
    enumeration, and no two values share a key, so the role shown in the
    navigation bar is never missing and never ambiguous. *)
Theorem labels_total_and_distinct :
  (∀ r : UserRole, is_Some (UserRoleLabels !! UserRole_value r))
  ∧ (∀ r1 r2 : UserRole,
       UserRoleLabels !! UserRole_value r1 = UserRoleLabels !! UserRole_value r2 →
       r1 = r2)
  ∧ (∀ s : ScanStatus, is_Some (ScanStatusLabels !! ScanStatus_value s))
  ∧ (∀ s1 s2 : ScanStatus,
       ScanStatusLabels !! ScanStatus_value s1
       = ScanStatusLabels !! ScanStatus_value s2 →
       s1 = s2)
  ∧ (∀ v : VulnerabilitySeverity,
       is_Some (VulnerabilitySeverityLabels !! VulnerabilitySeverity_value v))
  ∧ (∀ v1 v2 : VulnerabilitySeverity,
       VulnerabilitySeverityLabels !! VulnerabilitySeverity_value v1
       = VulnerabilitySeverityLabels !! VulnerabilitySeverity_value v2 →
       v1 = v2)
  ∧ ∀ u : User, is_Some (Navbar.roleLabel_key (Some u)).
Proof.
  repeat split.
  - intros []; vm_compute; eauto.
  - intros [] []; vm_compute; congruence.
  - intros []; vm_compute; eauto.
  - intros [] []; vm_compute; congruence.
  - intros []; vm_compute; eauto.
  - intros [] []; vm_compute; congruence.
  - intros [i n [] c d]; vm_compute; eauto.
Qed.

Lemma labels_total_and_distinct_witness :
  Navbar.roleLabel_key (Some Sample.ann) = Some "users.roleAnalyst"
  ∧ ∀ s : ScanStatus,
      ScanStatusLabels !! ScanStatus_value s
      = ScanStatusLabels !! ScanStatus_value FAILED →
      s = FAILED.
Proof.
  destruct labels_total_and_distinct as (_ & _ & _ & Hstatus & _).
  split; [reflexivity|]. intros s. apply Hstatus.
Defined.

End RoleChecks.

(** ** When the gateway navigates *)

Section ForcedLogout.
Import Browser Api.

Lemma navigations_request {A} (adapter : Adapter A) (config : RequestConfig)
    (w : State) :
  navigations (snd (request adapter config w))
  = navigations w
    ++ match adapter (outgoing config w) with
       | Fulfilled _ => []
       | Rejected e =>
           if bool_decide (error_status e = Some 401) then ["/login"] else []
       end.
Proof.
  rewrite request_unfold. unfold navigations.
  destruct (adapter (outgoing config w)) as [r|e]; simpl.
  - by rewrite omap_app.
  - destruct (bool_decide_reflect (error_status e = Some 401)) as [H|H].
    + rewrite response_rejected_unauthorized by done. simpl.
      rewrite <- app_assoc, omap_app. reflexivity.
    + rewrite response_rejected_other by done. simpl. by rewrite omap_app.
Qed.

(** The gateway sends the browser to the login page for a 401 and for
    nothing else: a request adds one navigation, to [/login], exactly when
    it was rejected with status 401, and adds none exactly when it was
    fulfilled or rejected otherwise; a fulfilled response reaches the
    caller unchanged and only the request is logged. *)
Theorem navigates_exactly_on_unauthorized {A} (adapter : Adapter A)
    (config : RequestConfig) (w : State) :
  ((∃ e, adapter (outgoing config w) = Rejected e ∧ error_status e = Some 401)
   ↔ navigations (snd (request adapter config w))
     = navigations w ++ ["/login"])
  ∧ ((∀ e, adapter (outgoing config w) = Rejected e →
           error_status e ≠ Some 401)
     ↔ navigations (snd (request adapter config w)) = navigations w)
  ∧ (∀ r, adapter (outgoing config w) = Fulfilled r →
          request adapter config w
          = (Fulfilled r, emit (HttpRequest (outgoing config w)) w)).
Proof.
  rewrite navigations_request.
  assert (∀ l : list string, l ++ ["/login"] ≠ l) as Hgrow.
  { intros l H. rewrite <- (app_nil_r l) in H at 2.
    by apply app_inv_head in H. }
  split; [|split].
  - split.
    + intros (e & -> & H). by rewrite bool_decide_eq_true_2.
    + destruct (adapter (outgoing config w)) as [r|e].
      * intros H. rewrite app_nil_r in H. symmetry in H. by apply Hgrow in H.
      * destruct (bool_decide_reflect (error_status e = Some 401)) as [H401|Hn].
        -- intros _. by exists e.
        -- intros H. rewrite app_nil_r in H. symmetry in H. by apply Hgrow in H.
  - split.
    + intros Hall. destruct (adapter (outgoing config w)) as [r|e].
      * apply app_nil_r.
      * rewrite bool_decide_eq_false_2 by (by apply Hall). apply app_nil_r.
    + destruct (adapter (outgoing config w)) as [r|e]; [discriminate|].
      destruct (bool_decide_reflect (error_status e = Some 401)) as [H401|Hn].
      * intros H. by apply Hgrow in H.
      * intros _ e' [= <-]. exact Hn.
  - intros r Hr. by rewrite request_unfold, Hr.
Qed.

Lemma navigates_exactly_on_unauthorized_witness :
  navigations
    (snd (request (A := list Scan) (λ _, Rejected Sample.server_error)
            (make_config "get" "/scans/" [] ∅) Sample.logged_in))
  = navigations Sample.logged_in
  ∧ navigations
      (snd (request (A := list Scan) (λ _, Rejected Sample.unauthorized)
              (make_config "get" "/scans/" [] ∅) Sample.logged_in))
    = navigations Sample.logged_in ++ ["/login"].
Proof.
  split.
  - apply (navigates_exactly_on_unauthorized (A := list Scan)
             (λ _, Rejected Sample.server_error)
             (make_config "get" "/scans/" [] ∅) Sample.logged_in).
    intros e [= <-]. discriminate.
  - apply (navigates_exactly_on_unauthorized (A := list Scan)
             (λ _, Rejected Sample.unauthorized)
             (make_config "get" "/scans/" [] ∅) Sample.logged_in).
    exists Sample.unauthorized. split; reflexivity.
Defined.

End ForcedLogout.

Lemma gateway_never_adds_to_store_witness :
  Browser.localStorage
    (snd (Api.request (A := list Scan) (λ _, Api.Rejected Sample.unauthorized)
            (Api.make_config "get" "/scans/" [] ∅)
            (Browser.mkState {[ "token" := "abc"; "i18nextLng" := "en" ]}
                             "/scans" [])))
    !! "i18nextLng"
  = Some "en".
Proof.
  destruct (gateway_never_adds_to_store (A := list Scan)
              (λ _, Api.Rejected Sample.unauthorized)
              (Api.make_config "get" "/scans/" [] ∅)
              (Browser.mkState {[ "token" := "abc"; "i18nextLng" := "en" ]}
                               "/scans" [])) as (_ & Hkeep & _).
  rewrite Hkeep by discriminate. reflexivity.
Defined.
